(** * proof-of-self: chunker, document identity, migration and indexer

    A shallow embedding of
      - [src/proof_of_self/core/chunker.py]   (DocumentChunker, generate_document_id),
      - [src/proof_of_monk/core/migrate.py]   (DataMigration),
      - [src/proof_of_monk/core/database.py] and [src/proof_of_self/core/database.py]
        (Database.insert_document),
      - [src/proof_of_self/core/indexer.py]   (Indexer),
    and the properties of the specification that concern them, followed by
    further properties of the same code: what splitting and chunking keep,
    what an insert, a migration and an indexing run write and what they
    leave alone.

    Python values are modelled as the code sees them: [str] is a [string] of
    code points below 256, [int] is [Z], a [dict] with string keys is a
    [gmap string _], exceptions are an explicit [result] type. *)

From Stdlib Require Import ZArith List Ascii String Lia Bool.
From Stdlib Require Import SpecFloat DecimalString DecimalZ DecimalPos.
From stdpp Require Import base option list gmap strings.

Local Open Scope Z_scope.

(** ** Python exceptions and the result of a call that may raise *)

Inductive exn : Type :=
  | TypeError
  | ValueError
  | KeyError
  | AttributeError
  | IndexError
  | ZeroDivisionError
  | OverflowError
  | JSONDecodeError
  | UnboundLocalError
  | SqliteError.

Inductive result (A : Type) : Type :=
  | Ok (a : A)
  | Raise (e : exn).
Arguments Ok {A} a.
Arguments Raise {A} e.

#[global] Instance result_ret : MRet result := fun A a => Ok a.
#[global] Instance result_bind : MBind result := fun A B f m =>
  match m with
  | Ok a => f a
  | Raise e => Raise e
  end.

(** A [for] loop whose body may raise: the first exception ends it. *)
Fixpoint for_each {A S : Type} (body : S -> A -> result S) (s : S) (l : list A)
    : result S :=
  match l with
  | [] => Ok s
  | x :: l' =>
      match body s x with
      | Ok s' => for_each body s' l'
      | Raise e => Raise e
      end
  end.

(** ** Python [str] operations used by the code *)

Module PyStr.

(** [len(s)] *)
Definition len (s : string) : Z := Z.of_nat (String.length s).

(** [s[:n]] for [n >= 0]: the first [n] characters, the whole of [s]
    when it is shorter. *)
Fixpoint slice_to (n : nat) (s : string) : string :=
  match n, s with
  | O, _ => EmptyString
  | S _, EmptyString => EmptyString
  | S n', String c s' => String c (slice_to n' s')
  end.

(** [str.isspace] on one character, which is also what [\s] matches in a
    [str] pattern: TAB..CR, FS..US, SPACE, NEL and NBSP below 256. *)
Definition isspace (c : ascii) : bool :=
  let n := nat_of_ascii c in
  ((9 <=? n) && (n <=? 13) || (28 <=? n) && (n <=? 32)
   || (n =? 133) || (n =? 160))%nat.

Definition newline : ascii := ascii_of_nat 10.

Definition is_newline (c : ascii) : bool := (nat_of_ascii c =? 10)%nat.

(** [c in ".!?"] *)
Definition is_sentence_end (c : ascii) : bool :=
  let n := nat_of_ascii c in
  ((n =? 46) || (n =? 33) || (n =? 63))%nat.

Fixpoint rev_onto (acc : string) (s : string) : string :=
  match s with
  | EmptyString => acc
  | String c s' => rev_onto (String c acc) s'
  end.

Definition rev (s : string) : string := rev_onto EmptyString s.

(** [s.lstrip()], [s.rstrip()], [s.strip()] *)
Fixpoint lstrip (s : string) : string :=
  match s with
  | EmptyString => EmptyString
  | String c s' => if isspace c then lstrip s' else s
  end.

Definition rstrip (s : string) : string := rev (lstrip (rev s)).

Definition strip (s : string) : string := rstrip (lstrip s).

(** Truth value of a [str]: non-empty. *)
Definition nonempty (s : string) : bool :=
  match s with EmptyString => false | String _ _ => true end.

(** [sep.join(parts)] *)
Definition join (sep : string) (parts : list string) : string :=
  String.concat sep parts.

(** [s.split()]: the maximal runs of non-whitespace characters.
    [cur] is the run being read, reversed. *)
Fixpoint split_ws_go (cur : string) (s : string) : list string :=
  match s with
  | EmptyString => if nonempty cur then [rev cur] else []
  | String c s' =>
      if isspace c
      then (if nonempty cur then rev cur :: split_ws_go EmptyString s'
            else split_ws_go EmptyString s')
      else split_ws_go (String c cur) s'
  end.

Definition split_ws (s : string) : list string := split_ws_go EmptyString s.

(** [s.replace(old, new)] for a one-character [old]. *)
Fixpoint replace_char (old : ascii) (new : string) (s : string) : string :=
  match s with
  | EmptyString => EmptyString
  | String c s' =>
      if Ascii.eqb c old then new +:+ replace_char old new s'
      else String c (replace_char old new s')
  end.

(** Some character of [s] is not whitespace. *)
Fixpoint has_nonspace (s : string) : bool :=
  match s with
  | EmptyString => false
  | String c s' => negb (isspace c) || has_nonspace s'
  end.

End PyStr.

(** ** [hashlib.sha256] and [str.encode]

    SHA-256 (FIPS 180-4) on a list of bytes, each a [Z] in [0, 256), with
    32-bit words as [Z] reduced by [w32]. *)

Module Sha256.

Definition w32 (x : Z) : Z := Z.land x 0xffffffff.

Definition add32 (x y : Z) : Z := w32 (x + y).

Definition rotr (n x : Z) : Z :=
  Z.lor (Z.shiftr x n) (w32 (Z.shiftl x (32 - n))).

Definition Ch (x y z : Z) : Z :=
  Z.lxor (Z.land x y) (Z.land (w32 (Z.lnot x)) z).

Definition Maj (x y z : Z) : Z :=
  Z.lxor (Z.lxor (Z.land x y) (Z.land x z)) (Z.land y z).

Definition Sigma0 (x : Z) : Z :=
  Z.lxor (Z.lxor (rotr 2 x) (rotr 13 x)) (rotr 22 x).

Definition Sigma1 (x : Z) : Z :=
  Z.lxor (Z.lxor (rotr 6 x) (rotr 11 x)) (rotr 25 x).

Definition sigma0 (x : Z) : Z :=
  Z.lxor (Z.lxor (rotr 7 x) (rotr 18 x)) (Z.shiftr x 3).

Definition sigma1 (x : Z) : Z :=
  Z.lxor (Z.lxor (rotr 17 x) (rotr 19 x)) (Z.shiftr x 10).

(** The first 64 primes. *)
Definition is_prime (n : Z) : bool :=
  forallb (fun d => negb (n mod d =? 0)) (seqZ 2 (n - 2)).

Definition primes : list Z := List.filter is_prime (seqZ 2 310).

(** The integer cube root of [n] below [2 ^ bits], one bit at a time. *)
Fixpoint cube_root (n : Z) (bits : nat) (r : Z) : Z :=
  match bits with
  | O => r
  | S b =>
      let r' := r + 2 ^ Z.of_nat b in
      if r' * r' * r' <=? n then cube_root n b r' else cube_root n b r
  end.

(** The round constants: the first 32 bits of the fractional parts of the
    cube roots of the primes. *)
Definition K : list Z :=
  map (fun p => w32 (cube_root (p * 2 ^ 96) 36 0)) primes.

(** Big-endian bytes of [x], [n] of them. *)
Fixpoint be_bytes (n : nat) (x : Z) : list Z :=
  match n with
  | O => []
  | S n' => Z.land (Z.shiftr x (8 * Z.of_nat n')) 0xff :: be_bytes n' x
  end.

(** The message followed by 0x80, zeros up to 56 mod 64, and the bit
    length on 64 bits. *)
Definition pad (msg : list Z) : list Z :=
  let l := Z.of_nat (length msg) in
  let k := (55 - l) mod 64 in
  msg ++ [0x80] ++ repeat 0 (Z.to_nat k) ++ be_bytes 8 (8 * l).

(** Big-endian 32-bit words of a byte list whose length is a multiple
    of four. *)
Fixpoint words (bs : list Z) : list Z :=
  match bs with
  | b0 :: b1 :: b2 :: b3 :: bs' =>
      (Z.shiftl b0 24 + Z.shiftl b1 16 + Z.shiftl b2 8 + b3) :: words bs'
  | _ => []
  end.

(** The message schedule, most recent word first: [n] more words are
    added to [w]. *)
Fixpoint schedule (n : nat) (w : list Z) : list Z :=
  match n with
  | O => w
  | S n' =>
      let wt := add32 (add32 (sigma1 (nth 1 w 0)) (nth 6 w 0))
                      (add32 (sigma0 (nth 14 w 0)) (nth 15 w 0)) in
      schedule n' (wt :: w)
  end.

Record regs : Type := Regs { ra : Z; rb : Z; rc : Z; rd : Z;
                             re : Z; rf : Z; rg : Z; rh : Z }.

Definition round (s : regs) (kw : Z * Z) : regs :=
  let '(k, w) := kw in
  let t1 := add32 (add32 (add32 (rh s) (Sigma1 (re s)))
                         (add32 (Ch (re s) (rf s) (rg s)) k)) w in
  let t2 := add32 (Sigma0 (ra s)) (Maj (ra s) (rb s) (rc s)) in
  Regs (add32 t1 t2) (ra s) (rb s) (rc s) (add32 (rd s) t1) (re s) (rf s) (rg s).

Definition compress (h : regs) (block : list Z) : regs :=
  let w := List.rev (schedule 48 (List.rev block)) in
  let s := fold_left round (combine K w) h in
  Regs (add32 (ra h) (ra s)) (add32 (rb h) (rb s)) (add32 (rc h) (rc s))
       (add32 (rd h) (rd s)) (add32 (re h) (re s)) (add32 (rf h) (rf s))
       (add32 (rg h) (rg s)) (add32 (rh h) (rh s)).

(** One 16-word block at a time; [n] bounds the number of blocks. *)
Fixpoint blocks (n : nat) (h : regs) (ws : list Z) : regs :=
  match n with
  | O => h
  | S n' =>
      match ws with
      | [] => h
      | _ => blocks n' (compress h (firstn 16 ws)) (skipn 16 ws)
      end
  end.

(** The initial hash value: the first 32 bits of the fractional parts of
    the square roots of the first eight primes. *)
Definition init : regs :=
  match map (fun p => w32 (Z.sqrt (p * 2 ^ 64))) primes with
  | a :: b :: c :: d :: e :: f :: g :: h :: _ => Regs a b c d e f g h
  | _ => Regs 0 0 0 0 0 0 0 0
  end.

Definition digest_words (msg : list Z) : list Z :=
  let ws := words (pad msg) in
  let h := blocks (length ws) init ws in
  [ra h; rb h; rc h; rd h; re h; rf h; rg h; rh h].

Definition hex_digit (n : Z) : ascii :=
  ascii_of_nat (Z.to_nat (if n <? 10 then 48 + n else 87 + n)).

Fixpoint hex_of (n : nat) (x : Z) : string :=
  match n with
  | O => EmptyString
  | S n' =>
      String (hex_digit (Z.land (Z.shiftr x (4 * Z.of_nat n')) 0xf)) (hex_of n' x)
  end.

(** [hashlib.sha256(msg).hexdigest()] *)
Definition hexdigest (msg : list Z) : string :=
  String.concat EmptyString (map (hex_of 8) (digest_words msg)).

End Sha256.

(** [s.encode()]: UTF-8.  A code point below 128 is one byte, one in
    [128, 256) is two.  On these strings encoding never fails; a [str] that
    holds a lone surrogate, on which [encode()] raises [UnicodeEncodeError],
    is not among them. *)
Definition utf8_char (c : ascii) : list Z :=
  let n := Z.of_nat (nat_of_ascii c) in
  if n <? 128 then [n]
  else [Z.lor 0xc0 (Z.shiftr n 6); Z.lor 0x80 (Z.land n 0x3f)].

Fixpoint encode (s : string) : list Z :=
  match s with
  | EmptyString => []
  | String c s' => utf8_char c ++ encode s'
  end.

(** UTF-8 can be decoded: the first character of an encoded string. *)
Definition utf8_head (bs : list Z) : option (ascii * list Z) :=
  match bs with
  | [] => None
  | b :: bs' =>
      if b <? 128 then Some (ascii_of_nat (Z.to_nat b), bs')
      else match bs' with
           | [] => None
           | b2 :: bs'' =>
               Some (ascii_of_nat (Z.to_nat ((b - 0xc0) * 64 + (b2 - 0x80))), bs'')
           end
  end.

(** ** Document identity ([chunker.py], [generate_document_id]) *)

(** [content[:1000] if len(content) > 1000 else content] *)
Definition content_sample (content : string) : string :=
  if 1000 <? PyStr.len content then PyStr.slice_to 1000 content else content.

(** [f"{content_sample}{source_path}{created_at}"] *)
Definition unique_str (content source_path created_at : string) : string :=
  content_sample content +:+ source_path +:+ created_at.

Definition generate_document_id (content source_path created_at : string) : string :=
  Sha256.hexdigest (encode (unique_str content source_path created_at)).

(** ** Python values

    The values that flow through metadata mappings, adapter records and
    table cells.  A [float] is represented by what this code can observe of
    it, its [repr] and its truth value; a nested [dict] keeps its items in
    insertion order. *)

Record pyfloat : Type := PyFloat { float_repr : string; float_nonzero : bool }.

Record datetime : Type := DateTime {
  year : Z; month : Z; day : Z;
  hour : Z; minute : Z; second : Z; microsecond : Z;
  utcoffset : option Z  (* seconds east of UTC, [None] for a naive value *)
}.

#[local] Unset Elimination Schemes.
Inductive pyval : Type :=
  | PNone
  | PBool (b : bool)
  | PInt (z : Z)
  | PFloat (f : pyfloat)
  | PStr (s : string)
  | PBytes (b : list Z)
  | PList (l : list pyval)
  | PDict (d : list (string * pyval))
  | PDatetime (t : datetime).
#[local] Set Elimination Schemes.

(** [bool(v)] *)
Definition truthy (v : pyval) : bool :=
  match v with
  | PNone => false
  | PBool b => b
  | PInt z => negb (z =? 0)
  | PFloat f => float_nonzero f
  | PStr s => PyStr.nonempty s
  | PBytes b => match b with [] => false | _ => true end
  | PList l => match l with [] => false | _ => true end
  | PDict d => match d with [] => false | _ => true end
  | PDatetime _ => true
  end.

(** [str(z)] for an [int] *)
Definition str_of_int (z : Z) : string := NilZero.string_of_int (Z.to_int z).

(** ** IEEE binary64 arithmetic

    The float expressions of the chunker, on [SpecFloat]'s binary64.  The
    conversion of [chunk_size], an [int] that the caller chooses, raises
    [OverflowError] beyond the double range.  In [_get_overlap_content] the
    operands are lengths and [overlap_size]: they are converted exactly
    below [2^53] in magnitude, which covers every [str] length, and
    [OverflowError] there is outside the model. *)

Module PyFloat.

Definition prec : Z := 53.
Definition emax : Z := 1024.

(** [float(z)], rounded to the nearest double *)
Definition of_int (z : Z) : spec_float := binary_normalize prec emax z 0 false.

(** The least magnitude that rounds to infinity. *)
Definition overflow_threshold : Z := 2 ^ 1024 - 2 ^ 970.

(** [float(z)] with its [OverflowError] *)
Definition of_int_checked (z : Z) : result spec_float :=
  if overflow_threshold <=? Z.abs z then Raise OverflowError else Ok (of_int z).

Definition mul : spec_float -> spec_float -> spec_float := SFmul prec emax.
Definition div : spec_float -> spec_float -> spec_float := SFdiv prec emax.

(** The literal [1.5] *)
Definition one_and_half : spec_float := binary_normalize prec emax 3 (-1) false.

(** [int(f)]: truncation towards zero. *)
Definition to_int (f : spec_float) : Z :=
  match f with
  | S754_finite s m e =>
      let v := if 0 <=? e then Z.pos m * 2 ^ e else Z.pos m / 2 ^ (- e) in
      if s then - v else v
  | _ => 0
  end.

(** [int(f)] with its errors for an infinity and a NaN *)
Definition to_int_checked (f : spec_float) : result Z :=
  match f with
  | S754_infinity _ => Raise OverflowError
  | S754_nan => Raise ValueError
  | _ => Ok (to_int f)
  end.

(** [z > f] for an [int] and a [float], compared exactly as Python does. *)
Definition int_gt (z : Z) (f : spec_float) : bool :=
  match f with
  | S754_zero _ => 0 <? z
  | S754_infinity s => s
  | S754_nan => false
  | S754_finite s m e =>
      let v := if s then Z.neg m else Z.pos m in
      if 0 <=? e then v * 2 ^ e <? z else v <? z * 2 ^ (- e)
  end.

End PyFloat.

(** ** The chunker ([chunker.py], [DocumentChunker]) *)

Module Chunker.

Record Chunk : Type := {
  chunk_id : string;
  document_id : string;
  chunk_index : Z;
  content : string;
  metadata : gmap string pyval
}.

(** The attributes of a [DocumentChunker] after [__init__]. *)
Record DocumentChunker : Type := {
  chunk_size : Z;
  overlap_percent : spec_float;
  min_chunk_size : Z;
  overlap_size : Z
}.

(** [DocumentChunker(chunk_size, overlap_percent, min_chunk_size)] *)
Definition init (chunk_size : Z) (overlap_percent : spec_float)
    (min_chunk_size : Z) : result DocumentChunker :=
  size ← PyFloat.of_int_checked chunk_size;
  overlap_size ← PyFloat.to_int_checked (PyFloat.mul size overlap_percent);
  Ok {| chunk_size := chunk_size;
        overlap_percent := overlap_percent;
        min_chunk_size := min_chunk_size;
        overlap_size := overlap_size |}.

(** The float literal [0.15]: [0x13333333333333 * 2^-55]. *)
Definition percent_15 : spec_float := S754_finite false 5404319552844595 (-55).

(** [DocumentChunker()] with the default arguments. *)
Definition default : DocumentChunker :=
  {| chunk_size := 800; overlap_percent := percent_15;
     min_chunk_size := 500; overlap_size := 120 |}.

(** A small chunker for the examples: [DocumentChunker(5, 0.15, 1)]. *)
Definition small : DocumentChunker :=
  {| chunk_size := 5; overlap_percent := percent_15;
     min_chunk_size := 1; overlap_size := 0 |}.

(** [DocumentChunker(1, -1.0, 1)], with a negative overlap. *)
Definition negative_overlap : DocumentChunker :=
  {| chunk_size := 1; overlap_percent := SFopp (PyFloat.of_int 1);
     min_chunk_size := 1; overlap_size := -1 |}.

Section Methods.
Variable self : DocumentChunker.

(** [_estimate_tokens] *)
Definition _estimate_tokens (text : string) : Z := PyStr.len text / 4.

(** [should_chunk] *)
Definition should_chunk (content : string) : bool :=
  let token_count := _estimate_tokens content in
  chunk_size self <? token_count.

(** The length of the longest prefix of [s] that matches [\s*\n]. *)
Fixpoint match_ws_nl (s : string) : option nat :=
  match s with
  | EmptyString => None
  | String c s' =>
      if PyStr.isspace c then
        match match_ws_nl s' with
        | Some n => Some (S n)
        | None => if PyStr.is_newline c then Some 1%nat else None
        end
      else None
  end.

(** [re.split(r'\n\s*\n', s)]: [cur] is the piece being read, reversed,
    and [skip] the number of characters of the current match still to
    pass over. *)
Fixpoint re_split_blank (cur : string) (skip : nat) (s : string) : list string :=
  match s with
  | EmptyString => [PyStr.rev cur]
  | String c s' =>
      match skip with
      | S k => re_split_blank cur k s'
      | O =>
          if PyStr.is_newline c then
            match match_ws_nl s' with
            | Some n => PyStr.rev cur :: re_split_blank EmptyString n s'
            | None => re_split_blank (String c cur) 0 s'
            end
          else re_split_blank (String c cur) 0 s'
      end
  end.

(** [[s.strip() for s in pieces if s.strip()]] *)
Definition strip_nonempty (pieces : list string) : list string :=
  map PyStr.strip (filter (fun s => Is_true (PyStr.nonempty (PyStr.strip s))) pieces).

(** [_split_into_segments] *)
Definition _split_into_segments (content : string) : list string :=
  let segments := re_split_blank EmptyString 0 content in
  strip_nonempty segments.

(** [re.split(r'(?<=[.!?])\s+', s)]: [prev] tells whether the previous
    character is one of [.!?], [inside] whether a match is being
    extended. *)
Fixpoint re_split_sentence (cur : string) (prev inside : bool) (s : string)
    : list string :=
  match s with
  | EmptyString => [PyStr.rev cur]
  | String c s' =>
      if PyStr.isspace c then
        if inside then re_split_sentence cur false true s'
        else if prev then PyStr.rev cur :: re_split_sentence EmptyString false true s'
        else re_split_sentence (String c cur) false false s'
      else re_split_sentence (String c cur) (PyStr.is_sentence_end c) false s'
  end.

(** [_split_into_sentences] *)
Definition _split_into_sentences (text : string) : list string :=
  let sentences := re_split_sentence EmptyString false false text in
  strip_nonempty sentences.

(** [words[-k:]] for [k > 0] *)
Definition last_n {A} (k : nat) (l : list A) : list A :=
  skipn (length l - k) l.

(** [_get_overlap_content] *)
Definition _get_overlap_content (chunks : list string) : result string :=
  match chunks with
  | [] => Ok EmptyString
  | _ =>
      let full_content := PyStr.join " " chunks in
      let tokens := _estimate_tokens full_content in
      if tokens <=? overlap_size self then Ok full_content
      else
        let words := PyStr.split_ws full_content in
        if tokens =? 0 then Raise ZeroDivisionError
        else
          let overlap_words :=
            PyFloat.to_int
              (PyFloat.mul (PyFloat.of_int (Z.of_nat (length words)))
                 (PyFloat.div (PyFloat.of_int (overlap_size self))
                              (PyFloat.of_int tokens))) in
          if 0 <? overlap_words
          then Ok (PyStr.join " " (last_n (Z.to_nat overlap_words) words))
          else Ok EmptyString
  end.

(** [_create_chunk] *)
Definition _create_chunk (document_id : string) (chunk_index : Z)
    (content : string) (metadata : option (gmap string pyval)) : Chunk :=
  let chunk_id := document_id +:+ "_chunk_" +:+ str_of_int chunk_index in
  let chunk_metadata : gmap string pyval :=
    <["char_count" := PInt (PyStr.len content)]>
      (<["token_count" := PInt (_estimate_tokens content)]>
         (<["chunk_index" := PInt chunk_index]> ∅)) in
  let chunk_metadata :=
    match metadata with
    | Some m => if decide (m = ∅) then chunk_metadata else m ∪ chunk_metadata
    | None => chunk_metadata
    end in
  {| chunk_id := chunk_id;
     document_id := document_id;
     chunk_index := chunk_index;
     content := content;
     metadata := chunk_metadata |}.

(** The local variables of the loop of [chunk_document]. *)
Record loop_state : Type := {
  chunks : list Chunk;
  current_chunk_content : list string;
  current_token_count : Z;
  next_chunk_index : Z   (* the local [chunk_index] *)
}.

Definition blank_line : string := String PyStr.newline (String PyStr.newline EmptyString).

(** The body shared by the sentence loop ([sep] is a space) and the
    paragraph branches ([sep] is a blank line): close the current chunk
    when [unit] does not fit, and start the next one from the overlap. *)
Definition pack (document_id : string) (metadata : option (gmap string pyval))
    (sep : string) (st : loop_state) (unit : string) : result loop_state :=
  let unit_tokens := _estimate_tokens unit in
  if chunk_size self <? current_token_count st + unit_tokens then
    let st1 :=
      match current_chunk_content st with
      | [] => st
      | _ =>
          let chunk := _create_chunk document_id (next_chunk_index st)
                         (PyStr.join sep (current_chunk_content st)) metadata in
          {| chunks := chunks st ++ [chunk];
             current_chunk_content := current_chunk_content st;
             current_token_count := current_token_count st;
             next_chunk_index := next_chunk_index st + 1 |}
      end in
    overlap_content ← _get_overlap_content (current_chunk_content st1);
    let content' :=
      if PyStr.nonempty overlap_content then [overlap_content; unit] else [unit] in
    Ok {| chunks := chunks st1;
          current_chunk_content := content';
          current_token_count := _estimate_tokens (PyStr.join sep content');
          next_chunk_index := next_chunk_index st1 |}
  else
    Ok {| chunks := chunks st;
          current_chunk_content := current_chunk_content st ++ [unit];
          current_token_count := current_token_count st + unit_tokens;
          next_chunk_index := next_chunk_index st |}.

(** One iteration of [for segment in segments]. *)
Definition segment_step (document_id : string)
    (metadata : option (gmap string pyval))
    (st : loop_state) (segment : string) : result loop_state :=
  let segment_tokens := _estimate_tokens segment in
  size ← PyFloat.of_int_checked (chunk_size self);
  if PyFloat.int_gt segment_tokens (PyFloat.mul size PyFloat.one_and_half)
  then
    let sentences := _split_into_sentences segment in
    for_each (pack document_id metadata " ") st sentences
  else pack document_id metadata blank_line st segment.

(** [chunk_document] *)
Definition chunk_document (document_id : string) (content : string)
    (metadata : option (gmap string pyval)) : result (list Chunk) :=
  if negb (should_chunk content) then Ok []
  else
    let segments := _split_into_segments content in
    st ← for_each (segment_step document_id metadata)
           {| chunks := []; current_chunk_content := [];
              current_token_count := 0; next_chunk_index := 0 |}
           segments;
    match current_chunk_content st with
    | [] => Ok (chunks st)
    | _ =>
        let chunk := _create_chunk document_id (next_chunk_index st)
                       (PyStr.join blank_line (current_chunk_content st)) metadata in
        Ok (chunks st ++ [chunk])
    end.

End Methods.

(** The first [n] characters of [s] are whitespace. *)
Fixpoint leading_space (n : nat) (s : string) : bool :=
  match n, s with
  | O, _ => true
  | S _, EmptyString => false
  | S n', String c s' => PyStr.isspace c && leading_space n' s'
  end.

(** The chunks closed so far are numbered from 0, all made by
    [_create_chunk] for this document, and [chunk_index] is their number. *)
Record loop_inv (document_id : string)
    (metadata : option (gmap string pyval)) (st : loop_state) : Prop := {
  inv_indexed : map chunk_index (chunks st) = seqZ 0 (Z.of_nat (length (chunks st)));
  inv_next : next_chunk_index st = Z.of_nat (length (chunks st));
  inv_made : Forall (fun c => exists i text,
                c = _create_chunk document_id i text metadata) (chunks st)
}.

(** The three keys that [_create_chunk] computes, for a given chunk. *)
Definition computed_metadata (c : Chunk) : gmap string pyval :=
  <["char_count" := PInt (PyStr.len (content c))]>
    (<["token_count" := PInt (_estimate_tokens (content c))]>
       (<["chunk_index" := PInt (chunk_index c)]> ∅)).

(** The caller's mapping, empty when [metadata] is [None]. *)
Definition caller_metadata (metadata : option (gmap string pyval))
    : gmap string pyval :=
  match metadata with Some m => m | None => ∅ end.

End Chunker.

(** [c * n] for a one-character string *)
Fixpoint str_repeat (c : ascii) (n : nat) : string :=
  match n with
  | O => EmptyString
  | S n' => String c (str_repeat c n')
  end.

(** ** The Python library

    What the modelled code calls in the standard library, as an interface:
    the properties below hold whatever these functions return. *)

Class PyLib : Type := {
  (** [str(v)] for a [bytes], [list], [dict] or [datetime] value *)
  str_other : pyval -> string;
  (** [json.loads(v)] *)
  json_loads : pyval -> result pyval;
  (** [json.dumps(v)] *)
  json_dumps : pyval -> result string;
  (** [datetime.fromisoformat(s)] *)
  fromisoformat : string -> result datetime;
  (** [t.isoformat()] *)
  isoformat : datetime -> string;
  (** [datetime.now()] *)
  now : datetime
}.

Section Builtins.
Context `{PyLib}.

(** [f"{v}"], that is [str(v)] *)
Definition format (v : pyval) : string :=
  match v with
  | PStr s => s
  | PNone => "None"
  | PBool true => "True"
  | PBool false => "False"
  | PInt z => str_of_int z
  | PFloat f => float_repr f
  | _ => str_other v
  end.

(** [generate_document_id] on arguments of any type: [len(content)]
    raises [TypeError] for a value without a length, [content[:1000]]
    raises for a [dict], and the f-string prints each field with [str]. *)
Definition generate_document_id_dyn (content source_path created_at : pyval)
    : result string :=
  match content with
  | PStr s =>
      Ok (generate_document_id s (format source_path) (format created_at))
  | _ =>
      sample ←
        match content with
        | PBytes b =>
            Ok (if (1000 <? Z.of_nat (length b)) then PBytes (firstn 1000 b) else content)
        | PList l =>
            Ok (if (1000 <? Z.of_nat (length l)) then PList (firstn 1000 l) else content)
        | PDict d =>
            if (1000 <? Z.of_nat (length d)) then Raise TypeError else Ok content
        | _ => Raise TypeError
        end;
      Ok (Sha256.hexdigest
            (encode (format sample +:+ format source_path +:+ format created_at)))
  end.

End Builtins.

(** [k in d] and [d[k]] for the items of a [dict] *)
Fixpoint assoc (k : string) (d : list (string * pyval)) : option pyval :=
  match d with
  | [] => None
  | (k', v) :: d' => if String.eqb k k' then Some v else assoc k d'
  end.

(** [needle in s] for two [str] *)
Definition str_contains (needle s : string) : bool :=
  match String.index 0 needle s with Some _ => true | None => false end.

(** [key in v] for a [str] key *)
Definition py_contains (key : string) (v : pyval) : result bool :=
  match v with
  | PDict d => Ok (match assoc key d with Some _ => true | None => false end)
  | PList l =>
      Ok (existsb (fun x => match x with PStr s => String.eqb s key | _ => false end) l)
  | PStr s => Ok (str_contains key s)
  | _ => Raise TypeError
  end.

(** [v == s] for a [str] literal [s] *)
Definition py_eq_str (v : pyval) (s : string) : bool :=
  match v with
  | PStr s' => String.eqb s' s
  | _ => false
  end.

(** [v[key]] for a [str] key *)
Definition py_getitem (v : pyval) (key : string) : result pyval :=
  match v with
  | PDict d => match assoc key d with Some x => Ok x | None => Raise KeyError end
  | _ => Raise TypeError
  end.

(** ** The database ([database.py] of both packages)

    The tables as values: the legacy tables are lists of rows, the
    [documents] table is a map from the primary key [id] to the other
    columns.  The tables that neither the migration nor the indexer reads
    or writes (bookmarks, likes, articles, chunks) are left out. *)

Module Tweet.
(** A row of [tweets]; a cell is [None], an [int], a [float], a [str] or
    a [bytes] value. *)
Record row : Type := {
  tweet_id : pyval;
  user_id : pyval;
  created_at : pyval;
  full_text : pyval;
  reply_to_tweet_id : pyval;
  reply_to_user : pyval;
  retweet_count : pyval;
  favorite_count : pyval;
  is_retweet : pyval;
  is_reply : pyval;
  entities : pyval
}.
End Tweet.

Module Thought.
(** A row of [thoughts]. *)
Record row : Type := {
  id : pyval;
  content : pyval;
  tags : pyval;
  category : pyval;
  created_at : pyval;
  updated_at : pyval
}.
End Thought.

Module Database.

(** A row of [documents] without its key: column name and value, in the
    order of the INSERT statement. *)
Definition document_row : Type := list (string * pyval).

Record Database : Type := {
  tweets : list Tweet.row;
  thoughts : list Thought.row;
  documents : gmap string document_row
}.

(** The two [Database] classes of the repository. *)
Inductive package : Type := proof_of_monk | proof_of_self.

(** The parameters of [insert_document] after [doc_id], with their
    defaults. *)
Definition insert_document_params (pkg : package) : list (string * option pyval) :=
  match pkg with
  | proof_of_monk =>
      [ ("source_type", None); ("content", None);
        ("content_type", Some PNone); ("title", Some PNone);
        ("metadata", Some PNone); ("tags", Some PNone);
        ("source_path", Some PNone); ("created_at", Some PNone) ]
  | proof_of_self =>
      [ ("source_type", None); ("content", None);
        ("content_type", Some PNone); ("title", Some PNone);
        ("author", Some PNone); ("is_chunked", Some (PBool false));
        ("metadata", Some PNone); ("tags", Some PNone);
        ("source_path", Some PNone); ("created_at", Some PNone) ]
  end.

(** Binding the keyword arguments of a call: a keyword that is not a
    parameter, or a parameter without a default that is not passed, is a
    [TypeError]. *)
Definition unexpected_keyword (params : list (string * option pyval))
    (kwargs : list (string * pyval)) : bool :=
  existsb (fun kv => negb (existsb (fun p => String.eqb (fst p) (fst kv)) params)) kwargs.

Fixpoint bind_params (params : list (string * option pyval))
    (kwargs : list (string * pyval)) : result (list (string * pyval)) :=
  match params with
  | [] => Ok []
  | (name, default) :: params' =>
      v ← match assoc name kwargs, default with
          | Some v, _ => Ok v
          | None, Some v => Ok v
          | None, None => Raise TypeError
          end;
      rest ← bind_params params' kwargs;
      Ok ((name, v) :: rest)
  end.

Definition bind_call (params : list (string * option pyval))
    (kwargs : list (string * pyval)) : result (list (string * pyval)) :=
  if unexpected_keyword params kwargs then Raise TypeError
  else bind_params params kwargs.

(** A bound argument, [None] for a name that is not a parameter. *)
Definition arg (args : list (string * pyval)) (name : string) : pyval :=
  match assoc name args with Some v => v | None => PNone end.

(** What sqlite3 can store: [None], numbers, [str], [bytes], and
    [datetime] through its adapter. *)
Definition storable (v : pyval) : bool :=
  match v with
  | PList _ | PDict _ => false
  | _ => true
  end.

(** The columns declared NOT NULL besides the key. *)
Definition not_null_columns (pkg : package) : list string :=
  match pkg with
  | proof_of_monk => ["source_type"; "content"]
  | proof_of_self => ["source_type"]
  end.

Section Insert.
Context `{PyLib}.

(** [json.dumps(v) if v else None] *)
Definition dumps_or_none (v : pyval) : result pyval :=
  if truthy v then s ← json_dumps v; Ok (PStr s) else Ok PNone.

(** The values of the INSERT OR REPLACE statement, by column. *)
Definition insert_values (pkg : package) (args : list (string * pyval))
    : result document_row :=
  metadata ← dumps_or_none (arg args "metadata");
  tags ← dumps_or_none (arg args "tags");
  let created_at :=
    if truthy (arg args "created_at") then arg args "created_at"
    else PDatetime now in
  Ok match pkg with
     | proof_of_monk =>
         [ ("source_type", arg args "source_type");
           ("content_type", arg args "content_type");
           ("title", arg args "title");
           ("content", arg args "content");
           ("metadata", metadata); ("tags", tags);
           ("source_path", arg args "source_path");
           ("created_at", created_at) ]
     | proof_of_self =>
         [ ("source_type", arg args "source_type");
           ("content_type", arg args "content_type");
           ("title", arg args "title");
           ("author", arg args "author");
           ("content", arg args "content");
           ("source_path", arg args "source_path");
           ("is_chunked", arg args "is_chunked");
           ("metadata", metadata); ("tags", tags);
           ("created_at", created_at) ]
     end.

(** The statement itself: a value that sqlite3 cannot bind, or [None]
    in a NOT NULL column, is an error; otherwise the row replaces the
    one with the same [id], if any. *)
Definition execute_insert (pkg : package) (doc_id : string)
    (values : document_row) (db : Database) : result Database :=
  if negb (forallb (fun cv => storable (snd cv)) values) then Raise SqliteError
  else if existsb (fun c => match assoc c values with
                            | Some PNone | None => true
                            | _ => false
                            end) (not_null_columns pkg)
  then Raise SqliteError
  else Ok {| tweets := tweets db;
             thoughts := thoughts db;
             documents := <[doc_id := values]> (documents db) |}.

(** [Database.insert_document], called with [doc_id] and the keyword
    arguments [kwargs]. *)
Definition insert_document (pkg : package) (doc_id : string)
    (kwargs : list (string * pyval)) (db : Database) : result Database :=
  args ← bind_call (insert_document_params pkg) kwargs;
  values ← insert_values pkg args;
  execute_insert pkg doc_id values db.

End Insert.

End Database.

(** ** The migration ([migrate.py], [DataMigration]) *)

Module Migrate.
Import Database.

(** A fetched [sqlite3.Row]: the selected columns by name. *)
Definition Row : Type := list (string * pyval).

(** [row[name]] *)
Definition row_get (row : Row) (name : string) : result pyval :=
  match assoc name row with
  | Some v => Ok v
  | None => Raise IndexError
  end.

(** The result of [SELECT tweet_id, ..., entities FROM tweets]. *)
Definition select_tweets (db : Database) : list Row :=
  map (fun t =>
         [ ("tweet_id", Tweet.tweet_id t); ("user_id", Tweet.user_id t);
           ("created_at", Tweet.created_at t); ("full_text", Tweet.full_text t);
           ("reply_to_tweet_id", Tweet.reply_to_tweet_id t);
           ("reply_to_user", Tweet.reply_to_user t);
           ("retweet_count", Tweet.retweet_count t);
           ("favorite_count", Tweet.favorite_count t);
           ("is_retweet", Tweet.is_retweet t); ("is_reply", Tweet.is_reply t);
           ("entities", Tweet.entities t) ])
      (tweets db).

(** The result of [SELECT id, content, tags, category, created_at,
    updated_at FROM thoughts]. *)
Definition select_thoughts (db : Database) : list Row :=
  map (fun t =>
         [ ("id", Thought.id t); ("content", Thought.content t);
           ("tags", Thought.tags t); ("category", Thought.category t);
           ("created_at", Thought.created_at t);
           ("updated_at", Thought.updated_at t) ])
      (thoughts db).

(** [SELECT id FROM documents WHERE id = ?] followed by [fetchone()]:
    whether a row was found. *)
Definition probe (db : Database) (doc_id : string) : bool :=
  bool_decide (is_Some (documents db !! doc_id)).

(** The returned statistics. *)
Record stats : Type := {
  total : Z;
  migrated : Z;
  skipped : Z;
  errors : Z
}.

(** The local variables of the loop: the three counters, the local that
    the [except] clause prints ([tweet_id] or [thought_id], unbound until
    first assigned), and the database. *)
Record loop_state : Type := {
  n_migrated : Z;
  n_skipped : Z;
  n_errors : Z;
  key_local : option pyval;
  db : Database
}.

(** How the [try] body of one record ends when it does not raise. *)
Inductive outcome : Type := Skipped | Migrated.

Section Methods.
Context `{PyLib}.

(** [generate_document_id], which [migrate.py] imports from
    [proof_of_monk.core.chunker]; that module is not among the sources, so
    the function is a parameter here, called with the cells as they are.
    The examples below run with the one of [proof_of_self.core.chunker]. *)
Variable generate_document_id : pyval -> pyval -> pyval -> result string.

(** The class of the [Database] object [self.db]. *)
Variable pkg : package.

(** *** Tweets *)

(** The [try] body from [user_id = row["user_id"]] to the call of
    [generate_document_id]: the entities and the id. *)
Definition tweet_identity (row : Row) (tweet_id : pyval) : result (pyval * string) :=
  user_id ← row_get row "user_id";
  created_at ← row_get row "created_at";
  full_text ← row_get row "full_text";
  _ ← row_get row "reply_to_tweet_id";
  _ ← row_get row "reply_to_user";
  _ ← row_get row "retweet_count";
  _ ← row_get row "favorite_count";
  _ ← row_get row "is_retweet";
  _ ← row_get row "is_reply";
  entities_json ← row_get row "entities";
  entities ← (if truthy entities_json then json_loads entities_json else Ok PNone);
  doc_id ← generate_document_id full_text
             (PStr ("twitter://" +:+ format user_id +:+ "/" +:+ format tweet_id))
             created_at;
  Ok (entities, doc_id).

(** The [try] body after the probe, up to the arguments of
    [insert_document]. *)
Definition tweet_document (row : Row) (tweet_id entities : pyval)
    : result (list (string * pyval)) :=
  user_id ← row_get row "user_id";
  created_at ← row_get row "created_at";
  full_text ← row_get row "full_text";
  reply_to_tweet_id ← row_get row "reply_to_tweet_id";
  reply_to_user ← row_get row "reply_to_user";
  retweet_count ← row_get row "retweet_count";
  favorite_count ← row_get row "favorite_count";
  is_retweet ← row_get row "is_retweet";
  is_reply ← row_get row "is_reply";
  tags ← (if truthy entities then
            match py_contains "hashtags" entities with
            | Ok true => py_getitem entities "hashtags"
            | Ok false => Ok (PList [])
            | Raise e => Raise e
            end
          else Ok (PList []));
  let metadata :=
    [ ("tweet_id", tweet_id); ("username", user_id);
      ("retweet_count", retweet_count); ("favorite_count", favorite_count);
      ("is_retweet", PBool (truthy is_retweet));
      ("is_reply", PBool (truthy is_reply)) ]
    ++ (if truthy reply_to_tweet_id then [("reply_to_tweet_id", reply_to_tweet_id)] else [])
    ++ (if truthy reply_to_user then [("reply_to_user", reply_to_user)] else [])
    ++ (if truthy entities then [("entities", entities)] else []) in
  let content_type :=
    if truthy is_retweet then "retweet"
    else if truthy is_reply then "reply"
    else "tweet" in
  created_at_dt ←
    match created_at with
    | PStr s => t ← fromisoformat (PyStr.replace_char "Z" "+00:00" s); Ok (PDatetime t)
    | _ => Ok created_at
    end;
  Ok [ ("source_type", PStr "twitter"); ("content_type", PStr content_type);
       ("title", PNone); ("author", user_id); ("content", full_text);
       ("source_path", PStr ("twitter://" +:+ format user_id +:+ "/" +:+ format tweet_id));
       ("is_chunked", PBool false); ("metadata", PDict metadata);
       ("tags", tags); ("created_at", created_at_dt) ].

(** *** Thoughts *)

Definition thought_identity (row : Row) (thought_id : pyval) : result (pyval * string) :=
  content ← row_get row "content";
  tags_json ← row_get row "tags";
  _ ← row_get row "category";
  created_at ← row_get row "created_at";
  _ ← row_get row "updated_at";
  tags ← (if truthy tags_json then json_loads tags_json else Ok (PList []));
  doc_id ← generate_document_id content
             (PStr ("thought://" +:+ format thought_id)) created_at;
  Ok (tags, doc_id).

Definition thought_document (row : Row) (thought_id tags : pyval)
    : result (list (string * pyval)) :=
  content ← row_get row "content";
  category ← row_get row "category";
  created_at ← row_get row "created_at";
  updated_at ← row_get row "updated_at";
  let metadata :=
    [ ("thought_id", thought_id); ("category", category);
      ("updated_at", updated_at) ] in
  created_at_dt ←
    match created_at with
    | PStr s => t ← fromisoformat s; Ok (PDatetime t)
    | _ => Ok created_at
    end;
  Ok [ ("source_type", PStr "user"); ("content_type", PStr "note");
       ("title", PNone); ("author", PNone); ("content", content);
       ("source_path", PStr ("thought://" +:+ format thought_id));
       ("is_chunked", PBool false); ("metadata", PDict metadata);
       ("tags", tags); ("created_at", created_at_dt) ].

(** *** The loop, the same for both tables

    [key] is the column read first ([tweet_id] or [id]); [identity] and
    [document] are the two halves of the [try] body. *)
Section Loop.
Variable key : string.
Variable identity : Row -> pyval -> result (pyval * string).
Variable document : Row -> pyval -> pyval -> result (list (string * pyval)).
Variable dry_run : bool.

(** The [try] body once the key is read. *)
Definition try_body (row : Row) (key_value : pyval) (d : Database)
    : result (outcome * Database) :=
  '(parsed, doc_id) ← identity row key_value;
  if probe d doc_id then Ok (Skipped, d)
  else
    kwargs ← document row key_value parsed;
    d' ← (if dry_run then Ok d else insert_document pkg doc_id kwargs d);
    Ok (Migrated, d').

(** The [except Exception] clause: the message prints the key local,
    which raises when that local was never assigned. *)
Definition except_clause (st : loop_state) : result loop_state :=
  match key_local st with
  | None => Raise UnboundLocalError
  | Some _ =>
      Ok {| n_migrated := n_migrated st; n_skipped := n_skipped st;
            n_errors := n_errors st + 1;
            key_local := key_local st; db := db st |}
  end.

(** One iteration of [for row in rows]. *)
Definition record_step (st : loop_state) (row : Row) : result loop_state :=
  match row_get row key with
  | Raise _ => except_clause st
  | Ok key_value =>
      let st := {| n_migrated := n_migrated st; n_skipped := n_skipped st;
                   n_errors := n_errors st;
                   key_local := Some key_value; db := db st |} in
      match try_body row key_value (db st) with
      | Ok (Skipped, _) =>
          Ok {| n_migrated := n_migrated st; n_skipped := n_skipped st + 1;
                n_errors := n_errors st;
                key_local := key_local st; db := db st |}
      | Ok (Migrated, d') =>
          Ok {| n_migrated := n_migrated st + 1; n_skipped := n_skipped st;
                n_errors := n_errors st;
                key_local := key_local st; db := d' |}
      | Raise _ => except_clause st
      end
  end.

(** The function from [fetchall()] to [return stats]. *)
Definition migrate_rows (rows : list Row) (d : Database)
    : result (stats * Database) :=
  st ← for_each record_step
         {| n_migrated := 0; n_skipped := 0; n_errors := 0;
            key_local := None; db := d |}
         rows;
  Ok ({| total := Z.of_nat (length rows);
         migrated := n_migrated st;
         skipped := n_skipped st;
         errors := n_errors st |}, db st).

End Loop.

(** *** Words for the properties of the loop *)

Section Outcomes.
Variable key : string.
Variable identity : Row -> pyval -> result (pyval * string).
Variable document : Row -> pyval -> pyval -> result (list (string * pyval)).

(** The state after one record whose key column is [kv], given how its
    [try] body ended. *)
Definition after_record (st : loop_state) (kv : pyval)
    (r : result (outcome * Database)) : loop_state :=
  match r with
  | Ok (Skipped, _) =>
      {| n_migrated := n_migrated st; n_skipped := n_skipped st + 1;
         n_errors := n_errors st; key_local := Some kv; db := db st |}
  | Ok (Migrated, d') =>
      {| n_migrated := n_migrated st + 1; n_skipped := n_skipped st;
         n_errors := n_errors st; key_local := Some kv; db := d' |}
  | Raise _ =>
      {| n_migrated := n_migrated st; n_skipped := n_skipped st;
         n_errors := n_errors st + 1; key_local := Some kv; db := db st |}
  end.

(** The row has the key column. *)
Definition has_key (row : Row) : Prop := exists kv, row_get row key = Ok kv.

(** With the ids [D] in [documents], the [try] body of [row] does not
    end in a migration. *)
Definition settled (D : gset string) (row : Row) : Prop :=
  forall kv d, row_get row key = Ok kv -> D ⊆ dom (documents d) ->
    match try_body identity document false row kv d with
    | Ok (Migrated, _) => False
    | _ => True
    end.

(** How the [try] body of [row] ends in a dry run on the database [d]. *)
Definition dry_outcome (d : Database) (row : Row) : result outcome :=
  match row_get row key with
  | Ok kv =>
      match try_body identity document true row kv d with
      | Ok (o, _) => Ok o
      | Raise e => Raise e
      end
  | Raise e => Raise e
  end.

Definition is_migrated (r : result outcome) : bool :=
  match r with Ok Migrated => true | _ => false end.
Definition is_skipped (r : result outcome) : bool :=
  match r with Ok Skipped => true | _ => false end.
Definition is_error (r : result outcome) : bool :=
  match r with Raise _ => true | _ => false end.

(** The number of rows whose dry-run outcome satisfies [p]. *)
Definition count_rows (p : result outcome -> bool) (d : Database)
    (rows : list Row) : Z :=
  Z.of_nat (length (List.filter (fun row => p (dry_outcome d row)) rows)).

(** How one record ends when its turn comes on the database [d], with the
    database it leaves: the [try] body, once the key column is read. *)
Definition row_result (dry_run : bool) (d : Database) (row : Row)
    : result (outcome * Database) :=
  match row_get row key with
  | Ok kv => try_body identity document dry_run row kv d
  | Raise e => Raise e
  end.

(** How the records of a batch end, one after the other, each on the
    database that the records before it have left. *)
Fixpoint batch_outcomes (dry_run : bool) (d : Database) (rows : list Row)
    : list (result outcome) :=
  match rows with
  | [] => []
  | row :: rest =>
      match row_result dry_run d row with
      | Ok (o, d') => Ok o :: batch_outcomes dry_run d' rest
      | Raise e => Raise e :: batch_outcomes dry_run d rest
      end
  end.

(** The number of outcomes that satisfy [p]. *)
Definition count_outcomes (p : result outcome -> bool) (l : list (result outcome)) : Z :=
  Z.of_nat (length (List.filter p l)).

End Outcomes.

(** [migrate_tweets_to_documents] *)
Definition migrate_tweets_to_documents (dry_run : bool) (d : Database)
    : result (stats * Database) :=
  migrate_rows "tweet_id" tweet_identity tweet_document dry_run
    (select_tweets d) d.

(** [migrate_thoughts_to_documents] *)
Definition migrate_thoughts_to_documents (dry_run : bool) (d : Database)
    : result (stats * Database) :=
  migrate_rows "id" thought_identity thought_document dry_run
    (select_thoughts d) d.

(** The value of [results] that [run_full_migration] returns. *)
Record results : Type := {
  res_tweets : stats;
  res_thoughts : stats;
  total_migrated : Z;
  total_errors : Z;
  summary_dry_run : bool
}.

(** [run_full_migration] *)
Definition run_full_migration (dry_run : bool) (d : Database)
    : result (results * Database) :=
  '(tweets_stats, d1) ← migrate_tweets_to_documents dry_run d;
  '(thoughts_stats, d2) ← migrate_thoughts_to_documents dry_run d1;
  Ok ({| res_tweets := tweets_stats;
         res_thoughts := thoughts_stats;
         total_migrated := migrated tweets_stats + migrated thoughts_stats;
         total_errors := errors tweets_stats + errors thoughts_stats;
         summary_dry_run := dry_run |}, d2).

End Methods.

End Migrate.

(** ** The indexer ([indexer.py] of [proof_of_self], [Indexer]) *)

Module Indexer.
Import Database.

(** An adapter: what [validate_source()] returns and the records that
    [parse()] yields, in order. *)
Record Adapter : Type := {
  validate_source : bool;
  parse : list (gmap string pyval)
}.

(** The returned [counts]. *)
Record counts : Type := {
  n_documents : Z;   (* counts["documents"] *)
  n_errors : Z       (* counts["errors"] *)
}.

(** The local state of the loop, with the number of records taken from
    the generator so far. *)
Record loop_state : Type := {
  cnt : counts;
  db : Database;
  consumed : nat
}.

(** A call of [index_from_adapter]: what it returns or raises, the
    database afterwards, and how many records it took from [parse()]. *)
Record run : Type := {
  returned : result counts;
  final_db : Database;
  records_consumed : nat
}.

Section Methods.
Context `{PyLib}.

(** [_index_document] *)
Definition _index_document (record : gmap string pyval) (d : Database)
    : result Database :=
  content ← match record !! "content" with
            | Some v => Ok v
            | None => Raise KeyError
            end;
  let source_path := default (PStr "") (record !! "source_path") in
  let created_at := default PNone (record !! "created_at") in
  created_at_str ←
    (if truthy created_at then
       match created_at with
       | PDatetime t => Ok (isoformat t)
       | _ => Raise AttributeError
       end
     else Ok EmptyString);
  doc_id ← generate_document_id_dyn content source_path (PStr created_at_str);
  insert_document proof_of_self doc_id
    [ ("source_type", default (PStr "unknown") (record !! "source_type"));
      ("content_type", default PNone (record !! "content_type"));
      ("title", default PNone (record !! "title"));
      ("author", default PNone (record !! "author"));
      ("content", content);
      ("source_path", source_path);
      ("is_chunked", PBool false);
      ("metadata", default PNone (record !! "metadata"));
      ("tags", default PNone (record !! "tags"));
      ("created_at", created_at) ]
    d.

(** One iteration of [for record in adapter.parse()]: the [try] body
    and its [except Exception] clause. *)
Definition record_step (st : loop_state) (record : gmap string pyval)
    : loop_state :=
  let record_type := default PNone (record !! "type") in
  let attempt :=
    if py_eq_str record_type "document" then
      d' ← _index_document record (db st);
      Ok ({| n_documents := n_documents (cnt st) + 1;
             n_errors := n_errors (cnt st) |}, d')
    else
      Ok ({| n_documents := n_documents (cnt st);
             n_errors := n_errors (cnt st) + 1 |}, db st) in
  match attempt with
  | Ok (c, d') => {| cnt := c; db := d'; consumed := S (consumed st) |}
  | Raise _ =>
      {| cnt := {| n_documents := n_documents (cnt st);
                   n_errors := n_errors (cnt st) + 1 |};
         db := db st; consumed := S (consumed st) |}
  end.

(** [index_from_adapter] *)
Definition index_from_adapter (adapter : Adapter) (d : Database) : run :=
  if negb (validate_source adapter) then
    {| returned := Raise ValueError; final_db := d; records_consumed := 0 |}
  else
    let st := fold_left record_step (parse adapter)
                {| cnt := {| n_documents := 0; n_errors := 0 |};
                   db := d; consumed := 0 |} in
    {| returned := Ok (cnt st); final_db := db st;
       records_consumed := consumed st |}.

End Methods.

End Indexer.

(** ** A model of the library, for running the code on examples

    [datetime] formatting and parsing for the format that [isoformat()]
    writes, [json.dumps] with its default options, [json.loads] for JSON
    without floats and without backslash escapes, and [repr].  CPython
    accepts more inputs in [fromisoformat] (depending on its version) and in
    [json.loads].  The properties of the repository's code are proved for
    every [PyLib]; only the examples run with this one. *)

Module RefLib.

Definition dquote : ascii := ascii_of_nat 34.
Definition squote : ascii := ascii_of_nat 39.
Definition backslash : ascii := ascii_of_nat 92.

Definition chr (c : ascii) : string := String c EmptyString.

(** [str(z)] on at least [n] digits, for [0 <= z]. *)
Definition zero_pad (n : nat) (z : Z) : string :=
  let s := str_of_int z in
  str_repeat "0" (n - String.length s) +:+ s.

(** *** [isoformat] and [fromisoformat] *)

Definition format_offset (off : Z) : string :=
  let a := Z.abs off in
  (if off <? 0 then "-" else "+")
  +:+ zero_pad 2 (a / 3600) +:+ ":" +:+ zero_pad 2 (a mod 3600 / 60)
  +:+ (if a mod 60 =? 0 then "" else ":" +:+ zero_pad 2 (a mod 60)).

(** [t.isoformat(sep)] *)
Definition isoformat_sep (sep : string) (t : datetime) : string :=
  zero_pad 4 (year t) +:+ "-" +:+ zero_pad 2 (month t) +:+ "-" +:+ zero_pad 2 (day t)
  +:+ sep
  +:+ zero_pad 2 (hour t) +:+ ":" +:+ zero_pad 2 (minute t) +:+ ":"
  +:+ zero_pad 2 (second t)
  +:+ (if microsecond t =? 0 then "" else "." +:+ zero_pad 6 (microsecond t))
  +:+ match utcoffset t with
      | Some off => format_offset off
      | None => ""
      end.

Definition digit (c : ascii) : option Z :=
  let n := Z.of_nat (nat_of_ascii c) in
  if (48 <=? n) && (n <=? 57) then Some (n - 48) else None.

(** Exactly [n] decimal digits at the head of [s]. *)
Fixpoint digits (n : nat) (acc : Z) (s : string) : option (Z * string) :=
  match n with
  | O => Some (acc, s)
  | S n' =>
      match s with
      | String c s' =>
          match digit c with
          | Some d => digits n' (10 * acc + d) s'
          | None => None
          end
      | EmptyString => None
      end
  end.

(** The character [c] at the head of [s]. *)
Definition expect (c : ascii) (s : string) : option string :=
  match s with
  | String c' s' => if Ascii.eqb c c' then Some s' else None
  | EmptyString => None
  end.

(** [HH[:MM[:SS[.fff[fff]]]]] and what follows it. *)
Definition parse_hh_mm_ss_ff (s : string) : option (Z * Z * Z * Z * string) :=
  '(hh, s) ← digits 2 0 s;
  match expect ":" s with
  | None => Some (hh, 0, 0, 0, s)
  | Some s =>
      '(mm, s) ← digits 2 0 s;
      match expect ":" s with
      | None => Some (hh, mm, 0, 0, s)
      | Some s =>
          '(ss, s) ← digits 2 0 s;
          match expect "." s with
          | None => Some (hh, mm, ss, 0, s)
          | Some s =>
              match digits 6 0 s with
              | Some (us, s) => Some (hh, mm, ss, us, s)
              | None =>
                  '(ms, s) ← digits 3 0 s;
                  Some (hh, mm, ss, 1000 * ms, s)
              end
          end
      end
  end.

Definition is_leap (y : Z) : bool :=
  (y mod 4 =? 0) && (negb (y mod 100 =? 0) || (y mod 400 =? 0)).

Definition days_in_month (y m : Z) : Z :=
  if m =? 2 then (if is_leap y then 29 else 28)
  else if (m =? 4) || (m =? 6) || (m =? 9) || (m =? 11) then 30
  else 31.

(** The range checks of the [datetime] constructor. *)
Definition valid_datetime (t : datetime) : bool :=
  (1 <=? year t) && (year t <=? 9999)
  && (1 <=? month t) && (month t <=? 12)
  && (1 <=? day t) && (day t <=? days_in_month (year t) (month t))
  && (hour t <? 24) && (minute t <? 60) && (second t <? 60)
  && match utcoffset t with
     | Some off => Z.abs off <? 86400
     | None => true
     end.

Definition parse_offset (s : string) : option (option Z) :=
  match s with
  | EmptyString => Some None
  | String c s' =>
      if Ascii.eqb c "+" || Ascii.eqb c "-" then
        '(hh, mm, ss, us, rest) ← parse_hh_mm_ss_ff s';
        match rest with
        | EmptyString =>
            if (String.length s' =? 5)%nat || (String.length s' =? 8)%nat then
              let off := 3600 * hh + 60 * mm + ss in
              Some (Some (if Ascii.eqb c "-" then - off else off))
            else None
        | _ => None
        end
      else None
  end.

Definition parse_datetime (s : string) : option datetime :=
  '(y, s) ← digits 4 0 s;
  s ← expect "-" s;
  '(m, s) ← digits 2 0 s;
  s ← expect "-" s;
  '(d, s) ← digits 2 0 s;
  match s with
  | EmptyString => Some (DateTime y m d 0 0 0 0 None)
  | String _ s =>
      '(hh, mm, ss, us, s) ← parse_hh_mm_ss_ff s;
      off ← parse_offset s;
      Some (DateTime y m d hh mm ss us off)
  end.

Definition ref_fromisoformat (s : string) : result datetime :=
  match parse_datetime s with
  | Some t => if valid_datetime t then Ok t else Raise ValueError
  | None => Raise ValueError
  end.

(** *** [repr] *)

Definition hex2 (n : Z) : string := Sha256.hex_of 2 n.

Definition has_char (c : ascii) (s : string) : bool :=
  existsb (Ascii.eqb c) (list_ascii_of_string s).

(** The quote that [repr] puts around a text. *)
Definition repr_quote (has_squote has_dquote : bool) : ascii :=
  if has_squote && negb has_dquote then dquote else squote.

(** One character inside [repr(s)]; [printable] tells which characters
    above the control range are written as they are. *)
Definition repr_char (quote : ascii) (printable : Z -> bool) (c : ascii) : string :=
  let n := Z.of_nat (nat_of_ascii c) in
  if Ascii.eqb c backslash then String backslash (chr backslash)
  else if Ascii.eqb c quote then String backslash (chr quote)
  else if n =? 9 then String backslash "t"
  else if n =? 10 then String backslash "n"
  else if n =? 13 then String backslash "r"
  else if (n <? 32) || negb (printable n) then String backslash ("x" +:+ hex2 n)
  else chr c.

Definition str_printable (n : Z) : bool :=
  negb ((127 <=? n) && (n <=? 160) || (n =? 173)).

Definition bytes_printable (n : Z) : bool := n <? 127.

(** [repr(s)] for a [str] *)
Definition str_repr (s : string) : string :=
  let q := repr_quote (has_char squote s) (has_char dquote s) in
  chr q +:+ String.concat "" (map (repr_char q str_printable) (list_ascii_of_string s))
  +:+ chr q.

(** [repr(b)] for a [bytes] value *)
Definition bytes_repr (b : list Z) : string :=
  let cs := map (fun n => ascii_of_nat (Z.to_nat n)) b in
  let q := repr_quote (existsb (Ascii.eqb squote) cs) (existsb (Ascii.eqb dquote) cs) in
  "b" +:+ chr q +:+ String.concat "" (map (repr_char q bytes_printable) cs) +:+ chr q.

(** [repr(t)] for a [datetime] *)
Definition datetime_repr (t : datetime) : string :=
  "datetime.datetime("
  +:+ String.concat ", "
        ([str_of_int (year t); str_of_int (month t); str_of_int (day t);
          str_of_int (hour t); str_of_int (minute t)]
         ++ (if (second t =? 0) && (microsecond t =? 0) then []
             else [str_of_int (second t)])
         ++ (if microsecond t =? 0 then [] else [str_of_int (microsecond t)])
         ++ match utcoffset t with
            | None => []
            | Some 0 => ["tzinfo=datetime.timezone.utc"]
            | Some off =>
                ["tzinfo=datetime.timezone(datetime.timedelta("
                 +:+ String.concat ", "
                       ((if off <? 0 then ["days=-1"] else [])
                        ++ (if off mod 86400 =? 0 then []
                            else ["seconds=" +:+ str_of_int (off mod 86400)]))
                 +:+ "))"]
            end)
  +:+ ")".

(** [repr(v)] *)
Fixpoint py_repr (v : pyval) : string :=
  match v with
  | PNone => "None"
  | PBool true => "True"
  | PBool false => "False"
  | PInt z => str_of_int z
  | PFloat f => float_repr f
  | PStr s => str_repr s
  | PBytes b => bytes_repr b
  | PDatetime t => datetime_repr t
  | PList l =>
      "[" +:+ String.concat ", " (map py_repr l) +:+ "]"
  | PDict d =>
      "{" +:+ String.concat ", "
                ((fix items (d : list (string * pyval)) : list string :=
                    match d with
                    | [] => []
                    | (k, x) :: d' => (str_repr k +:+ ": " +:+ py_repr x) :: items d'
                    end) d)
      +:+ "}"
  end.

Definition ref_str_other (v : pyval) : string :=
  match v with
  | PDatetime t => isoformat_sep " " t
  | _ => py_repr v
  end.

(** *** [json.dumps] *)

Definition json_char (c : ascii) : string :=
  let n := Z.of_nat (nat_of_ascii c) in
  if Ascii.eqb c dquote then String backslash (chr dquote)
  else if Ascii.eqb c backslash then String backslash (chr backslash)
  else if n =? 10 then String backslash "n"
  else if n =? 13 then String backslash "r"
  else if n =? 9 then String backslash "t"
  else if n =? 8 then String backslash "b"
  else if n =? 12 then String backslash "f"
  else if (n <? 32) || (126 <? n) then String backslash ("u" +:+ Sha256.hex_of 4 n)
  else chr c.

Definition json_string (s : string) : string :=
  chr dquote +:+ String.concat "" (map json_char (list_ascii_of_string s)) +:+ chr dquote.

Fixpoint ref_json_dumps (v : pyval) : result string :=
  match v with
  | PNone => Ok "null"
  | PBool true => Ok "true"
  | PBool false => Ok "false"
  | PInt z => Ok (str_of_int z)
  | PFloat f => Ok (float_repr f)
  | PStr s => Ok (json_string s)
  | PBytes _ | PDatetime _ => Raise TypeError
  | PList l =>
      items ← (fix go (l : list pyval) : result (list string) :=
                 match l with
                 | [] => Ok []
                 | x :: l' => s ← ref_json_dumps x; r ← go l'; Ok (s :: r)
                 end) l;
      Ok ("[" +:+ String.concat ", " items +:+ "]")
  | PDict d =>
      items ← (fix go (d : list (string * pyval)) : result (list string) :=
                 match d with
                 | [] => Ok []
                 | (k, x) :: d' =>
                     s ← ref_json_dumps x; r ← go d';
                     Ok ((json_string k +:+ ": " +:+ s) :: r)
                 end) d;
      Ok ("{" +:+ String.concat ", " items +:+ "}")
  end.

(** *** [json.loads], without floats and backslash escapes *)

Fixpoint skip_ws (s : string) : string :=
  match s with
  | String c s' =>
      let n := nat_of_ascii c in
      if ((n =? 32) || (n =? 9) || (n =? 10) || (n =? 13))%nat then skip_ws s' else s
  | EmptyString => EmptyString
  end.

(** The decimal digits at the head of [s]: their value, their number,
    and the rest. *)
Fixpoint read_digits (acc : Z) (n : nat) (s : string) : Z * nat * string :=
  match s with
  | String c s' =>
      match digit c with
      | Some d => read_digits (10 * acc + d) (S n) s'
      | None => (acc, n, s)
      end
  | EmptyString => (acc, n, s)
  end.

Definition starts_fraction (s : string) : bool :=
  match s with
  | String c _ => Ascii.eqb c "." || Ascii.eqb c "e" || Ascii.eqb c "E"
  | EmptyString => false
  end.

(** [0] or a digit string without a leading zero. *)
Definition parse_natural (s : string) : option (Z * string) :=
  match s with
  | String "0" s' => if starts_fraction s' then None else Some (0, s')
  | _ =>
      let '(z, n, rest) := read_digits 0 0 s in
      if (n =? 0)%nat || starts_fraction rest then None else Some (z, rest)
  end.

(** The text up to the closing quote. *)
Fixpoint parse_string_body (acc : string) (s : string) : option (string * string) :=
  match s with
  | EmptyString => None
  | String c s' =>
      if Ascii.eqb c dquote then Some (PyStr.rev acc, s')
      else if Ascii.eqb c backslash || (nat_of_ascii c <? 32)%nat then None
      else parse_string_body (String c acc) s'
  end.

(** [d[k] = v] on the items of a [dict] *)
Fixpoint dict_set (k : string) (v : pyval) (d : list (string * pyval))
    : list (string * pyval) :=
  match d with
  | [] => [(k, v)]
  | (k', v') :: d' =>
      if String.eqb k k' then (k, v) :: d' else (k', v') :: dict_set k v d'
  end.

Definition literal (word : string) (v : pyval) (s : string) : option (pyval * string) :=
  if String.prefix word s
  then Some (v, String.substring (String.length word) (String.length s) s)
  else None.

(** A JSON value at the head of [s]; [fuel] bounds the nesting. *)
Fixpoint parse_value (fuel : nat) (s : string) : option (pyval * string) :=
  match fuel with
  | O => None
  | S fuel' =>
      match s with
      | EmptyString => None
      | String c s' =>
          if Ascii.eqb c "n" then literal "null" PNone s
          else if Ascii.eqb c "t" then literal "true" (PBool true) s
          else if Ascii.eqb c "f" then literal "false" (PBool false) s
          else if Ascii.eqb c dquote then
            '(text, rest) ← parse_string_body EmptyString s';
            Some (PStr text, rest)
          else if Ascii.eqb c "-" then
            '(z, rest) ← parse_natural s';
            Some (PInt (- z), rest)
          else if Ascii.eqb c "[" then
            match skip_ws s' with
            | String "]" rest => Some (PList [], rest)
            | s1 =>
                (fix elements (n : nat) (acc : list pyval) (s : string)
                     : option (pyval * string) :=
                   match n with
                   | O => None
                   | S n' =>
                       '(v, rest) ← parse_value fuel' (skip_ws s);
                       match skip_ws rest with
                       | String "," rest' => elements n' (v :: acc) rest'
                       | String "]" rest' => Some (PList (List.rev (v :: acc)), rest')
                       | _ => None
                       end
                   end) (S (String.length s1)) [] s1
            end
          else if Ascii.eqb c "{" then
            match skip_ws s' with
            | String "}" rest => Some (PDict [], rest)
            | s1 =>
                (fix members (n : nat) (acc : list (string * pyval)) (s : string)
                     : option (pyval * string) :=
                   match n with
                   | O => None
                   | S n' =>
                       s ← expect dquote (skip_ws s);
                       '(k, rest) ← parse_string_body EmptyString s;
                       rest ← expect ":" (skip_ws rest);
                       '(v, rest) ← parse_value fuel' (skip_ws rest);
                       match skip_ws rest with
                       | String "," rest' => members n' (dict_set k v acc) rest'
                       | String "}" rest' => Some (PDict (dict_set k v acc), rest')
                       | _ => None
                       end
                   end) (S (String.length s1)) [] s1
            end
          else
            '(z, rest) ← parse_natural s;
            Some (PInt z, rest)
      end
  end.

Definition parse_json (s : string) : result pyval :=
  match parse_value (S (String.length s)) (skip_ws s) with
  | Some (v, rest) =>
      match skip_ws rest with
      | EmptyString => Ok v
      | _ => Raise JSONDecodeError
      end
  | None => Raise JSONDecodeError
  end.

Definition ref_json_loads (v : pyval) : result pyval :=
  match v with
  | PStr s => parse_json s
  | PBytes b =>
      if forallb (fun n => n <? 128) b
      then parse_json (string_of_list_ascii (map (fun n => ascii_of_nat (Z.to_nat n)) b))
      else Raise JSONDecodeError
  | _ => Raise TypeError
  end.

#[export] Instance cpython : PyLib := {|
  str_other := ref_str_other;
  json_loads := ref_json_loads;
  json_dumps := ref_json_dumps;
  fromisoformat := ref_fromisoformat;
  isoformat := isoformat_sep "T";
  now := DateTime 2024 1 1 0 0 0 0 None
|}.

End RefLib.

(** ** Example data *)

Module Examples.
Import Database.

(** The tweet of the specification's scenario. *)
Definition tweet_hello : Tweet.row :=
  {| Tweet.tweet_id := PStr "1"; Tweet.user_id := PStr "alice";
     Tweet.created_at := PStr "2020-01-01T00:00:00";
     Tweet.full_text := PStr "hello";
     Tweet.reply_to_tweet_id := PNone; Tweet.reply_to_user := PNone;
     Tweet.retweet_count := PInt 0; Tweet.favorite_count := PInt 0;
     Tweet.is_retweet := PInt 0; Tweet.is_reply := PInt 0;
     Tweet.entities := PNone |}.

(** A tweet whose timestamp is not a date. *)
Definition tweet_bad_timestamp : Tweet.row :=
  {| Tweet.tweet_id := PStr "2"; Tweet.user_id := PStr "alice";
     Tweet.created_at := PStr "not-a-date";
     Tweet.full_text := PStr "hello again";
     Tweet.reply_to_tweet_id := PNone; Tweet.reply_to_user := PNone;
     Tweet.retweet_count := PInt 0; Tweet.favorite_count := PInt 0;
     Tweet.is_retweet := PInt 0; Tweet.is_reply := PInt 0;
     Tweet.entities := PNone |}.

(** A retweet that is also flagged as a reply. *)
Definition tweet_retweet : Tweet.row :=
  {| Tweet.tweet_id := PStr "3"; Tweet.user_id := PStr "alice";
     Tweet.created_at := PStr "2020-01-02T00:00:00";
     Tweet.full_text := PStr "RT @bob: hi";
     Tweet.reply_to_tweet_id := PStr "7"; Tweet.reply_to_user := PStr "bob";
     Tweet.retweet_count := PInt 2; Tweet.favorite_count := PInt 0;
     Tweet.is_retweet := PInt 1; Tweet.is_reply := PInt 1;
     Tweet.entities := PNone |}.

(** A thought whose [tags] cell is not JSON. *)
Definition thought_bad_tags : Thought.row :=
  {| Thought.id := PInt 1; Thought.content := PStr "a note";
     Thought.tags := PStr "[broken"; Thought.category := PNone;
     Thought.created_at := PStr "2020-01-01 10:00:00";
     Thought.updated_at := PStr "2020-01-01 10:00:00" |}.

Definition thought_note : Thought.row :=
  {| Thought.id := PInt 2; Thought.content := PStr "another note";
     Thought.tags := PNone; Thought.category := PStr "idea";
     Thought.created_at := PStr "2020-01-01 10:00:00";
     Thought.updated_at := PStr "2020-01-01 10:00:00" |}.

(** A database with these legacy rows and no document. *)
Definition legacy (tweets : list Tweet.row) (thoughts : list Thought.row) : Database :=
  {| Database.tweets := tweets; Database.thoughts := thoughts;
     Database.documents := ∅ |}.

(** The statistics of the second of two calls of [run_full_migration]
    without [dry_run], for the tweets and for the thoughts. *)
Definition second_run_stats `{PyLib} (pkg : package) (d : Database)
    : result (Migrate.stats * Migrate.stats) :=
  '(_, d1) ← Migrate.run_full_migration generate_document_id_dyn pkg false d;
  '(r2, _) ← Migrate.run_full_migration generate_document_id_dyn pkg false d1;
  Ok (Migrate.res_tweets r2, Migrate.res_thoughts r2).

(** What a call returns, without the database. *)
Definition returned_stats {A : Type} (r : result (A * Database)) : result A :=
  '(s, _) ← r; Ok s.

(** An adapter whose source is invalid, with one record to yield. *)
Definition invalid_adapter : Indexer.Adapter :=
  {| Indexer.validate_source := false;
     Indexer.parse := [ {[ "type" := PStr "document"; "content" := PStr "hello" ]} ] |}.

End Examples.

(** ** Words for the further properties

    Predicates on strings and on the state of the chunking loop, and the
    data of the examples, that the properties beyond the specification are
    stated with. *)

(** The characters of [s] that are not whitespace, in order. *)
Fixpoint nonspace_chars (s : string) : string :=
  match s with
  | EmptyString => EmptyString
  | String c s' =>
      if PyStr.isspace c then nonspace_chars s' else String c (nonspace_chars s')
  end.

(** No character of [s] is whitespace. *)
Fixpoint all_nonspace (s : string) : bool :=
  match s with
  | EmptyString => true
  | String c s' => negb (PyStr.isspace c) && all_nonspace s'
  end.

(** A word: a non-empty string without whitespace. *)
Definition is_word (s : string) : bool := PyStr.nonempty s && all_nonspace s.

(** [f >= 0] for a float *)
Definition float_ge_zero (f : spec_float) : bool :=
  match f with
  | S754_zero _ => true
  | S754_infinity s | S754_finite s _ _ => negb s
  | S754_nan => false
  end.

(** [u] occurs in [s] as a run of consecutive characters. *)
Definition occurs_in (u s : string) : Prop := exists a b, s = a +:+ u +:+ b.

(** The closed chunks and the units of the open one all have a visible
    character. *)
Definition visible_inv (st : Chunker.loop_state) : Prop :=
  Forall (fun c => PyStr.has_nonspace (Chunker.content c) = true) (Chunker.chunks st)
  /\ Forall (fun u => PyStr.has_nonspace u = true) (Chunker.current_chunk_content st).

(** [u] is in a closed chunk or among the units of the open one. *)
Definition kept (st : Chunker.loop_state) (u : string) : Prop :=
  (exists c, c ∈ Chunker.chunks st /\ occurs_in u (Chunker.content c))
  \/ u ∈ Chunker.current_chunk_content st.

(** A segment is kept whole, or each of its sentences is. *)
Definition segment_kept (st : Chunker.loop_state) (segment : string) : Prop :=
  kept st segment \/ Forall (kept st) (Chunker._split_into_sentences segment).

(** A valid source with a tweet record and a document without content. *)
Definition unusable_adapter : Indexer.Adapter :=
  {| Indexer.validate_source := true;
     Indexer.parse := [ {[ "type" := PStr "tweet"; "content" := PStr "hello" ]};
                        {[ "type" := PStr "document"; "title" := PStr "empty" ]} ] |}.

(** The fetched row of [tweet_hello] and of [thought_note]. *)
Definition hello_row : Migrate.Row :=
  hd [] (Migrate.select_tweets (Examples.legacy [Examples.tweet_hello] [])).

Definition note_row : Migrate.Row :=
  hd [] (Migrate.select_thoughts (Examples.legacy [] [Examples.thought_note])).

(** The valid source of the examples. *)
Definition hello_adapter : Indexer.Adapter :=
  {| Indexer.validate_source := true;
     Indexer.parse := Indexer.parse Examples.invalid_adapter |}.

(** * Properties *)

(** ** The library: test vectors *)

Example sha256_abc :
  Sha256.hexdigest (encode "abc")
  = "ba7816bf8f01cfea414140de5dae2223b00361a396177a9cb410ff61f20015ad".
Proof. vm_compute. reflexivity. Qed.

Example sha256_empty :
  Sha256.hexdigest (encode "")
  = "e3b0c44298fc1c149afbf4c8996fb92427ae41e4649b934ca495991b7852b855".
Proof. vm_compute. reflexivity. Qed.

Example sha256_two_blocks :
  Sha256.hexdigest (encode (String.concat "" (repeat "a"%string 100)))
  = "2816597888e4a0d3a36b82b83316ab32680eb8f00f8cd3b904d681246d285a0e".
Proof. vm_compute. reflexivity. Qed.

Example sha256_latin1 :
  Sha256.hexdigest (encode (String "h" (String (ascii_of_nat 233) "llo")))
  = "3c48591d8d098a4538f5e013dfcf406e948eac4d3277b10bf614e295d6068179".
Proof. vm_compute. reflexivity. Qed.

(** ** Strings *)

Section StringFacts.
Import PyStr.

Lemma slice_to_short n s : (String.length s <= n)%nat -> slice_to n s = s.
Proof.
  revert n; induction s as [|c s IH]; intros [|n] H; simpl in *; try lia; try reflexivity.
  rewrite IH by lia. reflexivity.
Qed.

Lemma has_nonspace_rev_onto acc s :
  has_nonspace (rev_onto acc s) = has_nonspace acc || has_nonspace s.
Proof.
  revert acc; induction s as [|c s IH]; intros acc; simpl.
  - now rewrite orb_false_r.
  - rewrite IH. simpl. destruct (isspace c), (has_nonspace acc); reflexivity.
Qed.

Lemma has_nonspace_rev s : has_nonspace (rev s) = has_nonspace s.
Proof. unfold rev. now rewrite has_nonspace_rev_onto. Qed.

Lemma has_nonspace_lstrip s : has_nonspace (lstrip s) = has_nonspace s.
Proof.
  induction s as [|c s IH]; simpl; [reflexivity|].
  destruct (isspace c) eqn:E; simpl; [exact IH | now rewrite E].
Qed.

Lemma has_nonspace_strip s : has_nonspace (strip s) = has_nonspace s.
Proof.
  unfold strip, rstrip.
  now rewrite has_nonspace_rev, has_nonspace_lstrip, has_nonspace_rev, has_nonspace_lstrip.
Qed.

Lemma has_nonspace_nonempty s : has_nonspace s = true -> nonempty s = true.
Proof. destruct s; simpl; [discriminate | reflexivity]. Qed.

Lemma lstrip_nonempty s : nonempty (lstrip s) = has_nonspace (lstrip s).
Proof.
  induction s as [|c s IH]; simpl; [reflexivity|].
  destruct (isspace c) eqn:E; simpl; [exact IH | now rewrite E].
Qed.

Lemma nonempty_rev_onto acc s : nonempty (rev_onto acc s) = nonempty acc || nonempty s.
Proof.
  revert acc; induction s as [|c s IH]; intros acc; simpl.
  - now rewrite orb_false_r.
  - rewrite IH. simpl. now rewrite orb_true_r.
Qed.

(** A stripped string is empty exactly when the string is all whitespace. *)
Lemma strip_nonempty_iff s : nonempty (strip s) = has_nonspace s.
Proof.
  unfold strip, rstrip, rev at 1. rewrite nonempty_rev_onto. simpl.
  rewrite lstrip_nonempty, has_nonspace_lstrip, has_nonspace_rev.
  apply has_nonspace_lstrip.
Qed.

End StringFacts.

(** ** The chunker *)

Section ChunkerFacts.
Import PyStr Chunker.

(** *** Splitting keeps every non-whitespace character *)

Lemma match_ws_nl_space s n : match_ws_nl s = Some n -> leading_space n s = true.
Proof.
  revert n; induction s as [|c s IH]; intros n; simpl; [discriminate|].
  destruct (isspace c) eqn:E; [|discriminate].
  destruct (match_ws_nl s) as [m|].
  - intros [= <-]. simpl. rewrite E. now apply IH.
  - destruct (is_newline c); [|discriminate].
    intros [= <-]. simpl. now rewrite E.
Qed.

Lemma is_newline_space c : is_newline c = true -> isspace c = true.
Proof.
  unfold is_newline, isspace. intros H%Nat.eqb_eq. now rewrite H.
Qed.

Lemma re_split_blank_keeps s : forall cur skip,
  leading_space skip s = true ->
  has_nonspace cur || has_nonspace s = true ->
  Exists (fun p => has_nonspace p = true) (re_split_blank cur skip s).
Proof.
  induction s as [|c s IH]; intros cur skip Hskip Hne.
  - simpl. constructor. rewrite has_nonspace_rev.
    simpl in Hne. now rewrite orb_false_r in Hne.
  - destruct skip as [|k]; simpl.
    + assert (Hcons : has_nonspace (String c cur) || has_nonspace s = true).
      { simpl in *. destruct (isspace c), (has_nonspace cur), (has_nonspace s);
          simpl in *; congruence. }
      destruct (is_newline c) eqn:Enl; [|now apply IH].
      destruct (match_ws_nl s) as [n|] eqn:Em; [|now apply IH].
      destruct (has_nonspace cur) eqn:Ecur.
      * constructor. now rewrite has_nonspace_rev.
      * apply Exists_cons_tl. apply IH; [now apply match_ws_nl_space|].
        simpl in *. now rewrite (is_newline_space _ Enl) in Hne.
    + simpl in Hskip. apply andb_true_iff in Hskip as [Hc Hk].
      apply IH; [exact Hk|]. simpl in Hne. now rewrite Hc in Hne.
Qed.

Lemma re_split_sentence_keeps s : forall cur prev inside,
  has_nonspace cur || has_nonspace s = true ->
  Exists (fun p => has_nonspace p = true) (re_split_sentence cur prev inside s).
Proof.
  induction s as [|c s IH]; intros cur prev inside Hne.
  - simpl. constructor. rewrite has_nonspace_rev.
    simpl in Hne. now rewrite orb_false_r in Hne.
  - simpl in *. destruct (isspace c) eqn:Ec; simpl in *.
    + destruct inside; [now apply IH|].
      destruct prev.
      * destruct (has_nonspace cur) eqn:Ecur.
        -- constructor. now rewrite has_nonspace_rev.
        -- apply Exists_cons_tl. now apply IH.
      * apply IH. simpl. now rewrite Ec.
    + apply IH. simpl. now rewrite Ec.
Qed.

Lemma strip_nonempty_keeps pieces :
  Exists (fun p => has_nonspace p = true) pieces -> strip_nonempty pieces <> [].
Proof.
  unfold strip_nonempty. induction 1 as [p l Hp | p l _ IH]; rewrite filter_cons.
  - destruct (decide _) as [_|Hn]; [discriminate|].
    exfalso. apply Hn. rewrite strip_nonempty_iff, Hp. exact I.
  - destruct (decide _); [discriminate | exact IH].
Qed.

Lemma strip_nonempty_elem pieces x :
  x ∈ strip_nonempty pieces -> has_nonspace x = true.
Proof.
  unfold strip_nonempty. intros (p & -> & Hp)%list_elem_of_fmap.
  apply list_elem_of_filter in Hp as [Hp _].
  rewrite has_nonspace_strip, <- strip_nonempty_iff.
  now apply Is_true_eq_true.
Qed.

Lemma split_into_segments_nonempty content :
  has_nonspace content = true -> _split_into_segments content <> [].
Proof.
  intros H. apply strip_nonempty_keeps, re_split_blank_keeps; [reflexivity|].
  simpl. exact H.
Qed.

Lemma split_into_sentences_nonempty text :
  has_nonspace text = true -> _split_into_sentences text <> [].
Proof.
  intros H. apply strip_nonempty_keeps, re_split_sentence_keeps. simpl. exact H.
Qed.

(** *** Loops *)

Lemma for_each_inv {A S : Type} (P : S -> Prop) (Q : A -> Prop)
    (body : S -> A -> result S) :
  (forall s x s', P s -> Q x -> body s x = Ok s' -> P s') ->
  forall l s s', P s -> Forall Q l -> for_each body s l = Ok s' -> P s'.
Proof.
  intros Hbody l; induction l as [|x l IH]; intros s s' Hs Hl; simpl.
  - now intros [= <-].
  - inversion_clear Hl as [|? ? Hx Hl'].
    destruct (body s x) as [s1|e] eqn:E; [|discriminate].
    apply IH; [|exact Hl']. eapply Hbody; eauto.
Qed.

Lemma for_each_returns {A S : Type} (P : S -> Prop) (Q : A -> Prop)
    (body : S -> A -> result S) :
  (forall s x, P s -> Q x -> exists s', body s x = Ok s' /\ P s') ->
  forall l s, P s -> Forall Q l -> exists s', for_each body s l = Ok s' /\ P s'.
Proof.
  intros Hbody l; induction l as [|x l IH]; intros s Hs Hl; simpl.
  - eauto.
  - inversion_clear Hl as [|? ? Hx Hl'].
    destruct (Hbody s x Hs Hx) as (s1 & -> & Hs1). now apply IH.
Qed.

(** *** The loop of [chunk_document] *)

Lemma loop_inv_snoc d md st text :
  loop_inv d md st ->
  loop_inv d md
    {| chunks := chunks st ++ [_create_chunk d (next_chunk_index st) text md];
       current_chunk_content := current_chunk_content st;
       current_token_count := current_token_count st;
       next_chunk_index := next_chunk_index st + 1 |}.
Proof.
  intros [Hi Hn Hm]. split; simpl.
  - rewrite map_app, length_app, Hi. simpl.
    replace (length (chunks st) + 1)%nat with (S (length (chunks st))) by lia.
    rewrite seqZ_S, Hn. reflexivity.
  - rewrite length_app, Hn. simpl. lia.
  - apply Forall_app. split; [exact Hm|]. constructor; [eauto | constructor].
Qed.

Lemma get_overlap_content_returns self cs :
  0 <= overlap_size self -> exists s, _get_overlap_content self cs = Ok s.
Proof.
  intros Hov. unfold _get_overlap_content. destruct cs as [|c cs]; [eauto|].
  destruct (_ <=? overlap_size self) eqn:E; [eauto|].
  apply Z.leb_gt in E.
  destruct (_ =? 0) eqn:E0; [apply Z.eqb_eq in E0; lia|].
  destruct (0 <? _); eauto.
Qed.

Lemma pack_spec self d md sep st u st' :
  pack self d md sep st u = Ok st' ->
  loop_inv d md st ->
  loop_inv d md st' /\ current_chunk_content st' <> [].
Proof.
  unfold pack. intros H Hinv.
  destruct (chunk_size self <? _).
  - destruct (current_chunk_content st) as [|c cs] eqn:Ecur.
    + simpl in H. rewrite Ecur in H. simpl in H. injection H as <-. simpl.
      split; [now destruct Hinv | discriminate].
    + set (st1 := Build_loop_state _ _ _ _) in H.
      assert (Hinv1 : loop_inv d md st1).
      { subst st1. rewrite <- Ecur at 2. now apply loop_inv_snoc. }
      destruct (_get_overlap_content self (current_chunk_content st1)) as [ov|e];
        [|discriminate].
      simpl in H. injection H as <-. simpl.
      split; [now destruct Hinv1 | now destruct (nonempty ov)].
  - injection H as <-. simpl. split; [now destruct Hinv|].
    now destruct (current_chunk_content st).
Qed.

Lemma pack_returns self d md sep st u :
  0 <= overlap_size self -> exists st', pack self d md sep st u = Ok st'.
Proof.
  intros Hov. unfold pack.
  destruct (chunk_size self <? _); [|eauto].
  match goal with |- context [_get_overlap_content self ?cs] =>
    destruct (get_overlap_content_returns self cs Hov) as [ov ->]
  end.
  simpl. eauto.
Qed.

Lemma segment_step_spec self d md st segment st' :
  segment_step self d md st segment = Ok st' ->
  has_nonspace segment = true ->
  loop_inv d md st ->
  loop_inv d md st' /\ current_chunk_content st' <> [].
Proof.
  unfold segment_step. intros H Hseg Hinv.
  destruct (PyFloat.of_int_checked _) as [size|e]; [simpl in H|discriminate].
  destruct (PyFloat.int_gt _ _); [|now apply pack_spec in H].
  pose proof (split_into_sentences_nonempty segment Hseg) as Hne.
  destruct (_split_into_sentences segment) as [|u us]; [congruence|].
  simpl in H. destruct (pack self d md " " st u) as [st1|e] eqn:E1; [|discriminate].
  apply pack_spec in E1 as [Hinv1 Hcur1]; [|exact Hinv].
  eapply (for_each_inv
            (fun s => loop_inv d md s /\ current_chunk_content s <> [])
            (fun _ => True)); [| |apply Forall_true; auto|exact H].
  - intros s x s' [Hs _] _ Hp. now apply pack_spec in Hp.
  - now split.
Qed.

Lemma of_int_checked_returns z :
  Z.abs z < PyFloat.overflow_threshold -> PyFloat.of_int_checked z = Ok (PyFloat.of_int z).
Proof.
  intros Hz. unfold PyFloat.of_int_checked.
  destruct (_ <=? _) eqn:E; [apply Z.leb_le in E; lia | reflexivity].
Qed.

Lemma segment_step_returns self d md st segment :
  Z.abs (chunk_size self) < PyFloat.overflow_threshold ->
  0 <= overlap_size self -> exists st', segment_step self d md st segment = Ok st'.
Proof.
  intros Hcs Hov. unfold segment_step. rewrite (of_int_checked_returns _ Hcs). simpl.
  destruct (PyFloat.int_gt _ _); [|now apply pack_returns].
  destruct (for_each_returns (fun _ => True) (fun _ => True)
              (pack self d md " ")) with (l := _split_into_sentences segment)
              (s := st) as (st' & H & _); eauto using Forall_true.
  intros s x _ _. destruct (pack_returns self d md " " s x Hov) as [s' ->]. eauto.
Qed.

Lemma segments_loop self d md segments st st' :
  for_each (segment_step self d md) st segments = Ok st' ->
  Forall (fun x => has_nonspace x = true) segments ->
  loop_inv d md st ->
  loop_inv d md st' /\ (segments <> [] -> current_chunk_content st' <> []).
Proof.
  intros H Hall Hinv. destruct segments as [|x l].
  - injection H as <-. now split.
  - simpl in H. inversion_clear Hall as [|? ? Hx Hl].
    destruct (segment_step self d md st x) as [st1|e] eqn:E1; [|discriminate].
    apply segment_step_spec in E1 as [Hinv1 Hcur1]; [|exact Hx|exact Hinv].
    enough (loop_inv d md st' /\ current_chunk_content st' <> []) by tauto.
    eapply (for_each_inv
              (fun s => loop_inv d md s /\ current_chunk_content s <> []));
      [| |exact Hl|exact H]; [|now split].
    intros s y s' [Hs _] Hy Hstep. now apply segment_step_spec in Hstep.
Qed.

Lemma segments_loop_returns self d md segments st :
  Z.abs (chunk_size self) < PyFloat.overflow_threshold ->
  0 <= overlap_size self ->
  exists st', for_each (segment_step self d md) st segments = Ok st'.
Proof.
  intros Hcs Hov.
  destruct (for_each_returns (fun _ => True) (fun _ => True)
              (segment_step self d md)) with (l := segments) (s := st)
    as (st' & H & _); eauto using Forall_true.
  intros s x _ _. destruct (segment_step_returns self d md s x Hcs Hov) as [s' ->]. eauto.
Qed.

Lemma initial_loop_inv d md :
  loop_inv d md
    {| chunks := []; current_chunk_content := [];
       current_token_count := 0; next_chunk_index := 0 |}.
Proof. split; simpl; [reflexivity | reflexivity | constructor]. Qed.

Lemma segments_have_nonspace content :
  Forall (fun x => has_nonspace x = true) (_split_into_segments content).
Proof. apply Forall_forall. intros x Hx. eapply strip_nonempty_elem, Hx. Qed.

(** What [chunk_document] returns is numbered from 0 and made by
    [_create_chunk] with the caller's [metadata]. *)
Lemma chunk_document_spec self d content md cs :
  chunk_document self d content md = Ok cs ->
  map chunk_index cs = seqZ 0 (Z.of_nat (length cs))
  /\ Forall (fun c => exists i text, c = _create_chunk d i text md) cs
  /\ (should_chunk self content = true -> has_nonspace content = true -> cs <> []).
Proof.
  unfold chunk_document. destruct (should_chunk self content); simpl.
  2:{ intros [= <-]. repeat split; [constructor | discriminate]. }
  destruct (for_each _ _ _) as [st|e] eqn:E; [|discriminate]. simpl.
  apply segments_loop in E as [Hinv Hcur];
    [|apply segments_have_nonspace|apply initial_loop_inv].
  destruct (current_chunk_content st) as [|c l] eqn:Ecur.
  - intros [= <-]. destruct Hinv as [Hi Hn Hm]. repeat split; [exact Hi|exact Hm|].
    intros _ Hns. exfalso. apply Hcur; [|reflexivity].
    now apply split_into_segments_nonempty.
  - intros [= <-].
    pose proof (loop_inv_snoc d md st (join blank_line (c :: l)) Hinv)
      as [Hi Hn Hm]. simpl in *.
    repeat split; [exact Hi|exact Hm|]. intros _ _. now destruct (chunks st).
Qed.

(** C1 (as amended): for a chunker whose [chunk_size] is within the range
    of a float and whose [overlap_size] is not negative, a document for
    which [should_chunk] is true and which has at least one non-whitespace
    character is chunked into a non-empty list whose [chunk_index] values
    are 0, 1, ..., n-1 in order. *)
Theorem chunk_coverage self document_id content metadata :
  Z.abs (chunk_size self) < PyFloat.overflow_threshold ->
  0 <= overlap_size self ->
  should_chunk self content = true ->
  has_nonspace content = true ->
  exists cs,
    chunk_document self document_id content metadata = Ok cs
    /\ cs <> []
    /\ map chunk_index cs = seqZ 0 (Z.of_nat (length cs)).
Proof.
  intros Hcs Hov Hsc Hns.
  assert (exists cs, chunk_document self document_id content metadata = Ok cs)
    as [cs Hdoc].
  { unfold chunk_document. rewrite Hsc. simpl.
    match goal with |- context [for_each ?f ?s ?l] =>
      destruct (segments_loop_returns self document_id metadata l s Hcs Hov) as [st ->]
    end.
    simpl. destruct (current_chunk_content st); eauto. }
  exists cs. split; [exact Hdoc|].
  apply chunk_document_spec in Hdoc as (Hi & _ & Hne). split; [now apply Hne | exact Hi].
Qed.

Lemma chunk_coverage_witness :
  exists cs,
    chunk_document small "doc"
      "One sentence here. Another sentence there! And a third one?" None = Ok cs
    /\ cs <> []
    /\ map chunk_index cs = seqZ 0 (Z.of_nat (length cs)).
Proof.
  apply (chunk_coverage small); [reflexivity | discriminate | reflexivity | reflexivity].
Defined.

(** C1 (as stated) fails: with the default configuration a document of
    3204 spaces has [should_chunk] true, and [chunk_document] returns the
    empty list, because every segment is dropped as empty. *)
Lemma chunk_coverage_whitespace_only :
  should_chunk default (str_repeat " " 3204) = true
  /\ chunk_document default "doc" (str_repeat " " 3204) None = Ok [].
Proof. split; vm_compute; reflexivity. Qed.

(** C7: [should_chunk] is true exactly when [len(content) // 4] exceeds
    [chunk_size], and when it is false [chunk_document] returns the empty
    list. *)
Theorem chunk_threshold self document_id content metadata :
  (should_chunk self content = true <-> chunk_size self < PyStr.len content / 4)
  /\ (should_chunk self content = false ->
      chunk_document self document_id content metadata = Ok []).
Proof.
  split.
  - unfold should_chunk, _estimate_tokens. apply Z.ltb_lt.
  - intros H. unfold chunk_document. now rewrite H.
Qed.

Lemma chunk_threshold_witness :
  should_chunk default "para one.

para two." = false
  /\ chunk_document default "doc" "para one.

para two." None = Ok [].
Proof.
  split; [reflexivity|].
  apply (proj2 (chunk_threshold default "doc" _ None)). reflexivity.
Defined.

(** C6: in every chunk that [chunk_document] returns, a key of the
    caller's metadata has the caller's value, also when it is one of the
    computed keys [chunk_index], [token_count], [char_count]; every other
    key has the computed value. *)
Theorem chunk_metadata_caller_wins self document_id content metadata cs c k :
  chunk_document self document_id content metadata = Ok cs ->
  c ∈ cs ->
  Chunker.metadata c !! k =
    match caller_metadata metadata !! k with
    | Some v => Some v
    | None => computed_metadata c !! k
    end.
Proof.
  intros H Hc. apply chunk_document_spec in H as (_ & Hm & _).
  rewrite Forall_forall in Hm. destruct (Hm c Hc) as (i & text & ->).
  unfold _create_chunk, computed_metadata, caller_metadata. simpl.
  destruct metadata as [m|]; [|now rewrite lookup_empty].
  destruct (decide (m = ∅)) as [->|_].
  - rewrite lookup_empty. reflexivity.
  - rewrite lookup_union.
    destruct (m !! k); [|now rewrite (left_id None _)].
    now destruct (_ !! k).
Qed.

Lemma chunk_metadata_caller_wins_witness :
  exists cs c,
    chunk_document small "doc"
      "One sentence here. Another sentence there! And a third one?"
      (Some {["chunk_index" := PStr "mine"]}) = Ok cs
    /\ c ∈ cs
    /\ Chunker.metadata c !! "chunk_index" = Some (PStr "mine").
Proof.
  destruct (chunk_document small "doc"
      "One sentence here. Another sentence there! And a third one?"
      (Some {["chunk_index" := PStr "mine"]})) as [cs|e] eqn:E;
    [|vm_compute in E; discriminate].
  destruct cs as [|c cs]; [vm_compute in E; discriminate|].
  exists (c :: cs), c. split; [reflexivity|]. split; [left|].
  rewrite (chunk_metadata_caller_wins _ _ _ _ _ c "chunk_index" E); [reflexivity | left].
Defined.

End ChunkerFacts.

(** ** Document identity *)

Section IdentityFacts.
Import PyStr.

(** The sample is the first 1000 characters, whatever the length. *)
Lemma content_sample_slice content : content_sample content = slice_to 1000 content.
Proof.
  unfold content_sample, len. destruct (1000 <? _) eqn:E; [reflexivity|].
  apply Z.ltb_ge in E. symmetry. apply slice_to_short. lia.
Qed.

Lemma utf8_head_char c bs : utf8_head (utf8_char c ++ bs) = Some (c, bs).
Proof. destruct c as [[] [] [] [] [] [] [] []]; reflexivity. Qed.

Lemma utf8_char_nonempty c : utf8_char c <> [].
Proof. unfold utf8_char. now destruct (_ <? 128). Qed.

Lemma encode_inj s1 s2 : encode s1 = encode s2 -> s1 = s2.
Proof.
  revert s2; induction s1 as [|c1 s1 IH]; intros [|c2 s2]; simpl; intros H.
  - reflexivity.
  - destruct (utf8_char c2) eqn:E; [now apply utf8_char_nonempty in E | discriminate].
  - destruct (utf8_char c1) eqn:E; [now apply utf8_char_nonempty in E | discriminate].
  - apply (f_equal utf8_head) in H. rewrite !utf8_head_char in H.
    injection H as -> H. f_equal. now apply IH.
Qed.

(** C2 (as amended): the bytes that are hashed for two provenance pairs
    are equal exactly when [source_path + created_at] is the same string
    for both, the three fields being concatenated without a separator; so
    two pairs with the same concatenation get the same id, and any other
    two pairs get different SHA-256 inputs. *)
Theorem generate_document_id_provenance content source_path1 created_at1
    source_path2 created_at2 :
  (encode (unique_str content source_path1 created_at1)
     = encode (unique_str content source_path2 created_at2)
   <-> source_path1 +:+ created_at1 = source_path2 +:+ created_at2)
  /\ (source_path1 +:+ created_at1 = source_path2 +:+ created_at2 ->
      generate_document_id content source_path1 created_at1
      = generate_document_id content source_path2 created_at2).
Proof.
  assert (Heq : source_path1 +:+ created_at1 = source_path2 +:+ created_at2 ->
                unique_str content source_path1 created_at1
                = unique_str content source_path2 created_at2).
  { unfold unique_str. now intros ->. }
  split; [split|].
  - intros H%encode_inj. unfold unique_str in H.
    now apply (inj (String.app _)) in H.
  - now intros ->%Heq.
  - unfold generate_document_id. now intros ->%Heq.
Qed.

Lemma generate_document_id_provenance_witness :
  generate_document_id "hello" "notes/1" "2020-01-01"
  = generate_document_id "hello" "notes/" "12020-01-01".
Proof.
  apply (proj2 (generate_document_id_provenance "hello" "notes/1" "2020-01-01"
                  "notes/" "12020-01-01")).
  reflexivity.
Defined.

(** C2 (as stated) fails: the provenance pairs [("notes/1", "2020-01-01")]
    and [("notes/", "12020-01-01")] are different and get the same id. *)
Lemma generate_document_id_collision :
  ("notes/1", "2020-01-01") <> ("notes/", "12020-01-01")
  /\ generate_document_id "hello" "notes/1" "2020-01-01"
     = generate_document_id "hello" "notes/" "12020-01-01".
Proof. split; [discriminate | reflexivity]. Qed.

(** C5: the id depends on [content] through its first 1000 characters
    only: two contents with the same first 1000 characters, the same
    [source_path] and the same [created_at] get the same id. *)
Theorem generate_document_id_prefix content1 content2 source_path created_at :
  slice_to 1000 content1 = slice_to 1000 content2 ->
  generate_document_id content1 source_path created_at
  = generate_document_id content2 source_path created_at.
Proof.
  intros H. unfold generate_document_id, unique_str.
  now rewrite !content_sample_slice, H.
Qed.

Lemma generate_document_id_prefix_witness :
  generate_document_id (str_repeat "a" 1000 +:+ "left") "notes/1" "2020-01-01"
  = generate_document_id (str_repeat "a" 1000 +:+ "right, and longer") "notes/1" "2020-01-01".
Proof. apply generate_document_id_prefix. vm_compute. reflexivity. Defined.

End IdentityFacts.

(** ** The database *)

Section DatabaseFacts.
Context `{PyLib}.
Import Database.

(** Whether [insert_document] raises does not depend on the tables, and
    when it returns it has replaced or added the row [doc_id] and nothing
    else. *)
Lemma insert_document_cases pkg doc_id kwargs :
  (exists e, forall d, insert_document pkg doc_id kwargs d = Raise e)
  \/ (exists values, forall d,
        insert_document pkg doc_id kwargs d
        = Ok {| tweets := tweets d; thoughts := thoughts d;
                documents := <[doc_id := values]> (documents d) |}).
Proof.
  unfold insert_document.
  destruct (bind_call _ kwargs) as [args|e]; simpl; [|left; eauto].
  destruct (insert_values pkg args) as [values|e]; simpl; [|left; eauto].
  unfold execute_insert.
  destruct (negb _); [left; eauto|].
  destruct (existsb _ _); [left; eauto|].
  right. eauto.
Qed.

Lemma assoc_In k l v : assoc k l = Some v -> In (k, v) l.
Proof.
  induction l as [|[k' x] l IH]; simpl; [discriminate|].
  destruct (String.eqb_spec k k') as [<-|_]; [intros [= ->]; now left|].
  intros Hl. right. now apply IH.
Qed.

(** The [proof_of_monk] class has no [author] parameter. *)
Lemma insert_document_unexpected_keyword doc_id kwargs d :
  is_Some (assoc "author" kwargs) ->
  insert_document proof_of_monk doc_id kwargs d = Raise TypeError.
Proof.
  intros [v Hv%assoc_In]. unfold insert_document, bind_call.
  assert (unexpected_keyword (insert_document_params proof_of_monk) kwargs = true)
    as ->; [|reflexivity].
  apply existsb_exists. exists ("author", v). split; [exact Hv | reflexivity].
Qed.

End DatabaseFacts.

(** ** The migration *)

Section MigrationFacts.
Context `{PyLib}.
Variable gen : pyval -> pyval -> pyval -> result string.
Import Database Migrate.

Section LoopFacts.
Variable pkg : package.
Variable key : string.
Variable identity : Row -> pyval -> result (pyval * string).
Variable document : Row -> pyval -> pyval -> result (list (string * pyval)).

#[local] Abbreviation has_key := (Migrate.has_key key).
#[local] Abbreviation settled := (Migrate.settled pkg key identity document).
#[local] Abbreviation dry_outcome := (Migrate.dry_outcome pkg key identity document).
#[local] Abbreviation count_rows := (Migrate.count_rows pkg key identity document).

(** A row that has the key column never makes the iteration raise:
    the [except] clause finds its local bound. *)
Lemma record_step_after dry st row kv :
  row_get row key = Ok kv ->
  record_step pkg key identity document dry st row
  = Ok (after_record st kv (try_body pkg identity document dry row kv (db st))).
Proof.
  intros Hk. unfold record_step. rewrite Hk. simpl.
  destruct (try_body _ _ _ _ _ _ _) as [[[|] d']|e]; reflexivity.
Qed.

Lemma try_body_dry_db row kv d o d' :
  try_body pkg identity document true row kv d = Ok (o, d') -> d' = d.
Proof.
  unfold try_body. destruct (identity row kv) as [[parsed doc_id]|e]; simpl; [|discriminate].
  destruct (probe d doc_id); [now intros [= _ <-]|].
  destruct (document row kv parsed); simpl; [|discriminate].
  now intros [= _ <-].
Qed.

(** Each record adds one to exactly one counter. *)
Lemma loop_counts dry rows : forall st,
  Forall has_key rows ->
  exists st',
    for_each (record_step pkg key identity document dry) st rows = Ok st'
    /\ n_migrated st' + n_skipped st' + n_errors st'
       = n_migrated st + n_skipped st + n_errors st + Z.of_nat (length rows)
    /\ (dry = true -> db st' = db st).
Proof.
  induction rows as [|row rows IH]; intros st Hall.
  - exists st. simpl. repeat split; lia.
  - inversion_clear Hall as [|? ? [kv Hk] Hrows]. simpl.
    rewrite (record_step_after dry st row kv Hk).
    destruct (IH (after_record st kv
                    (try_body pkg identity document dry row kv (db st))) Hrows)
      as (st' & -> & Hsum & Hdb).
    exists st'. split; [reflexivity|]. split.
    + rewrite Hsum. unfold after_record.
      destruct (try_body _ _ _ _ _ _ _) as [[[|] d']|e]; simpl; lia.
    + intros ->. rewrite Hdb by reflexivity. unfold after_record.
      destruct (try_body _ _ _ _ _ _ _) as [[[|] d']|e] eqn:E; simpl; try reflexivity.
      now apply try_body_dry_db in E.
Qed.

Lemma migrate_rows_counts dry rows d :
  Forall has_key rows ->
  exists s d',
    migrate_rows pkg key identity document dry rows d = Ok (s, d')
    /\ migrated s + skipped s + errors s = total s
    /\ total s = Z.of_nat (length rows)
    /\ (dry = true -> d' = d).
Proof.
  intros Hall. unfold migrate_rows.
  destruct (loop_counts dry rows
              {| n_migrated := 0; n_skipped := 0; n_errors := 0;
                 key_local := None; db := d |} Hall)
    as (st' & -> & Hsum & Hdb).
  simpl. eexists _, _. split; [reflexivity|]. simpl in *.
  repeat split; [lia | exact Hdb].
Qed.

(** *** Running the migration again *)

Lemma probe_dom d doc_id : probe d doc_id = true <-> doc_id ∈ dom (documents d).
Proof. unfold probe. rewrite bool_decide_eq_true. symmetry. apply elem_of_dom. Qed.

Lemma settled_mono D D' row : D ⊆ D' -> settled D row -> settled D' row.
Proof. intros HD Hs kv d Hk Hsub. apply Hs; [exact Hk | set_solver]. Qed.

(** What a record leaves in the database: the legacy tables as they
    were, no id removed, and the record settled. *)
Lemma try_body_settles row kv d :
  row_get row key = Ok kv ->
  let d' := db (after_record {| n_migrated := 0; n_skipped := 0; n_errors := 0;
                                key_local := None; db := d |} kv
                  (try_body pkg identity document false row kv d)) in
  tweets d' = tweets d /\ thoughts d' = thoughts d
  /\ dom (documents d) ⊆ dom (documents d')
  /\ settled (dom (documents d')) row.
Proof.
  intros Hk. unfold settled, try_body.
  destruct (identity row kv) as [[parsed doc_id]|e] eqn:Eid; simpl.
  2:{ repeat split; [set_solver|]. intros kv2 d2 Hk2 _.
      rewrite Hk in Hk2. injection Hk2 as <-. now rewrite Eid. }
  destruct (probe d doc_id) eqn:Ep; simpl.
  { repeat split; [set_solver|]. intros kv2 d2 Hk2 Hsub.
    rewrite Hk in Hk2. injection Hk2 as <-. rewrite Eid. simpl.
    apply probe_dom in Ep.
    assert (probe d2 doc_id = true) as -> by (apply probe_dom; set_solver).
    exact I. }
  destruct (document row kv parsed) as [kwargs|e] eqn:Edoc; simpl.
  2:{ repeat split; [set_solver|]. intros kv2 d2 Hk2 _.
      rewrite Hk in Hk2. injection Hk2 as <-. rewrite Eid. simpl.
      destruct (probe d2 doc_id); [exact I|]. now rewrite Edoc. }
  destruct (insert_document_cases pkg doc_id kwargs) as [[e He]|[values Hv]].
  - rewrite He. simpl. repeat split; [set_solver|]. intros kv2 d2 Hk2 _.
    rewrite Hk in Hk2. injection Hk2 as <-. rewrite Eid. simpl.
    destruct (probe d2 doc_id); [exact I|]. rewrite Edoc. simpl. now rewrite He.
  - rewrite Hv. simpl. repeat split; [rewrite dom_insert_L; set_solver|].
    intros kv2 d2 Hk2 Hsub.
    rewrite Hk in Hk2. injection Hk2 as <-. rewrite Eid. simpl.
    assert (probe d2 doc_id = true) as ->; [|exact I].
    apply probe_dom. apply Hsub. rewrite dom_insert_L. set_solver.
Qed.

Lemma after_record_db st kv r :
  db (after_record st kv r)
  = db (after_record {| n_migrated := 0; n_skipped := 0; n_errors := 0;
                        key_local := None; db := db st |} kv r).
Proof. now destruct r as [[[|] d']|e]. Qed.

(** The first run settles every record. *)
Lemma first_run rows : forall st,
  Forall has_key rows ->
  exists st',
    for_each (record_step pkg key identity document false) st rows = Ok st'
    /\ tweets (db st') = tweets (db st)
    /\ thoughts (db st') = thoughts (db st)
    /\ dom (documents (db st)) ⊆ dom (documents (db st'))
    /\ Forall (settled (dom (documents (db st')))) rows.
Proof.
  induction rows as [|row rows IH]; intros st Hall.
  - exists st. simpl. repeat split; [set_solver | constructor].
  - inversion_clear Hall as [|? ? [kv Hk] Hrows]. simpl.
    rewrite (record_step_after false st row kv Hk).
    pose proof (try_body_settles row kv (db st) Hk) as (Ht & Hth & Hdom & Hset).
    simpl in Ht, Hth, Hdom, Hset. rewrite <- after_record_db in Ht, Hth, Hdom, Hset.
    destruct (IH (after_record st kv
                    (try_body pkg identity document false row kv (db st))) Hrows)
      as (st' & -> & Ht' & Hth' & Hdom' & Hset').
    exists st'. split; [reflexivity|].
    repeat split; [congruence | congruence | set_solver |].
    constructor; [|exact Hset']. eapply settled_mono; eauto.
Qed.

(** A run over settled records migrates nothing and writes nothing. *)
Lemma settled_run rows : forall st,
  Forall has_key rows ->
  Forall (settled (dom (documents (db st)))) rows ->
  exists st',
    for_each (record_step pkg key identity document false) st rows = Ok st'
    /\ db st' = db st
    /\ n_migrated st' = n_migrated st
    /\ n_skipped st' + n_errors st'
       = n_skipped st + n_errors st + Z.of_nat (length rows).
Proof.
  induction rows as [|row rows IH]; intros st Hall Hset.
  - exists st. simpl. repeat split; lia.
  - inversion_clear Hall as [|? ? [kv Hk] Hrows].
    inversion_clear Hset as [|? ? Hrow Hset']. simpl.
    rewrite (record_step_after false st row kv Hk).
    specialize (Hrow kv (db st) Hk (reflexivity _)).
    set (st1 := after_record st kv _).
    assert (db st1 = db st /\ n_migrated st1 = n_migrated st
            /\ n_skipped st1 + n_errors st1 = n_skipped st + n_errors st + 1)
      as (Hdb & Hm & Hse).
    { subst st1. unfold after_record.
      destruct (try_body _ _ _ _ _ _ _) as [[[|] d']|e]; simpl;
        [repeat split; lia | contradiction | repeat split; lia]. }
    destruct (IH st1 Hrows) as (st' & -> & Hdb' & Hm' & Hse').
    { now rewrite Hdb. }
    exists st'. split; [reflexivity|]. repeat split; [congruence | lia | lia].
Qed.

Lemma migrate_rows_first rows d :
  Forall has_key rows ->
  exists s d',
    migrate_rows pkg key identity document false rows d = Ok (s, d')
    /\ tweets d' = tweets d /\ thoughts d' = thoughts d
    /\ dom (documents d) ⊆ dom (documents d')
    /\ Forall (settled (dom (documents d'))) rows.
Proof.
  intros Hall. unfold migrate_rows.
  destruct (first_run rows {| n_migrated := 0; n_skipped := 0; n_errors := 0;
                              key_local := None; db := d |} Hall)
    as (st' & -> & Ht & Hth & Hdom & Hset).
  simpl in *. eexists _, _. split; [reflexivity|]. auto.
Qed.

Lemma migrate_rows_settled rows d :
  Forall has_key rows ->
  Forall (settled (dom (documents d))) rows ->
  exists s,
    migrate_rows pkg key identity document false rows d = Ok (s, d)
    /\ migrated s = 0
    /\ skipped s = total s - errors s.
Proof.
  intros Hall Hset. unfold migrate_rows.
  destruct (settled_run rows {| n_migrated := 0; n_skipped := 0; n_errors := 0;
                                key_local := None; db := d |} Hall Hset)
    as (st' & -> & Hdb & Hm & Hse).
  simpl in *. rewrite Hdb. eexists. split; [reflexivity|]. simpl. split; lia.
Qed.

(** *** A dry run *)

Lemma count_rows_cons p d row rows :
  count_rows p d (row :: rows)
  = (if p (dry_outcome d row) then 1 else 0) + count_rows p d rows.
Proof.
  unfold count_rows. simpl. destruct (p (dry_outcome d row)); simpl; lia.
Qed.

Lemma dry_loop rows : forall st,
  Forall has_key rows ->
  exists st',
    for_each (record_step pkg key identity document true) st rows = Ok st'
    /\ db st' = db st
    /\ n_migrated st' = n_migrated st + count_rows is_migrated (db st) rows
    /\ n_skipped st' = n_skipped st + count_rows is_skipped (db st) rows
    /\ n_errors st' = n_errors st + count_rows is_error (db st) rows.
Proof.
  induction rows as [|row rows IH]; intros st Hall.
  - exists st. unfold count_rows. simpl. repeat split; lia.
  - inversion_clear Hall as [|? ? [kv Hk] Hrows]. simpl.
    rewrite (record_step_after true st row kv Hk).
    set (st1 := after_record st kv _).
    assert (Hdb1 : db st1 = db st).
    { subst st1. unfold after_record.
      destruct (try_body _ _ _ _ _ _ _) as [[[|] d']|e] eqn:E; simpl; try reflexivity.
      now apply try_body_dry_db in E. }
    destruct (IH st1 Hrows) as (st' & -> & Hdb & Hm & Hs & He).
    exists st'. split; [reflexivity|]. rewrite Hdb1 in *.
    split; [congruence|].
    rewrite !count_rows_cons, Hm, Hs, He. unfold dry_outcome. rewrite Hk.
    subst st1. unfold after_record.
    destruct (try_body _ _ _ _ _ _ _) as [[[|] d']|e]; simpl; repeat split; lia.
Qed.

Lemma migrate_rows_dry rows d :
  Forall has_key rows ->
  migrate_rows pkg key identity document true rows d
  = Ok ({| total := Z.of_nat (length rows);
           migrated := count_rows is_migrated d rows;
           skipped := count_rows is_skipped d rows;
           errors := count_rows is_error d rows |}, d).
Proof.
  intros Hall. unfold migrate_rows.
  destruct (dry_loop rows {| n_migrated := 0; n_skipped := 0; n_errors := 0;
                             key_local := None; db := d |} Hall)
    as (st' & -> & Hdb & Hm & Hs & He).
  simpl in *. now rewrite Hdb, Hm, Hs, He.
Qed.

End LoopFacts.

Lemma select_tweets_has_key d : Forall (has_key "tweet_id") (select_tweets d).
Proof.
  unfold select_tweets. apply Forall_forall. intros row (t & -> & _)%list_elem_of_fmap.
  now exists (Tweet.tweet_id t).
Qed.

Lemma select_thoughts_has_key d : Forall (has_key "id") (select_thoughts d).
Proof.
  unfold select_thoughts. apply Forall_forall. intros row (t & -> & _)%list_elem_of_fmap.
  now exists (Thought.id t).
Qed.

Lemma migrate_tweets_returns pkg dry_run d :
  exists s d', migrate_tweets_to_documents gen pkg dry_run d = Ok (s, d')
               /\ migrated s + skipped s + errors s = total s
               /\ total s = Z.of_nat (length (tweets d)).
Proof.
  destruct (migrate_rows_counts pkg "tweet_id" (tweet_identity gen) tweet_document
              dry_run (select_tweets d) d (select_tweets_has_key d))
    as (s & d' & Hrun & Hsum & Htot & _).
  exists s, d'. repeat split; [exact Hrun | exact Hsum |].
  rewrite Htot. unfold select_tweets. now rewrite length_map.
Qed.

Lemma migrate_thoughts_returns pkg dry_run d :
  exists s d', migrate_thoughts_to_documents gen pkg dry_run d = Ok (s, d')
               /\ migrated s + skipped s + errors s = total s
               /\ total s = Z.of_nat (length (thoughts d)).
Proof.
  destruct (migrate_rows_counts pkg "id" (thought_identity gen) thought_document
              dry_run (select_thoughts d) d (select_thoughts_has_key d))
    as (s & d' & Hrun & Hsum & Htot & _).
  exists s, d'. repeat split; [exact Hrun | exact Hsum |].
  rewrite Htot. unfold select_thoughts. now rewrite length_map.
Qed.

(** C10: in the statistics that [migrate_tweets_to_documents] and
    [migrate_thoughts_to_documents] return, with or without [dry_run],
    [migrated + skipped + errors] is [total], the number of rows. *)
Theorem migration_counters_add_up pkg dry_run d :
  (exists s d', migrate_tweets_to_documents gen pkg dry_run d = Ok (s, d')
                /\ migrated s + skipped s + errors s = total s
                /\ total s = Z.of_nat (length (tweets d)))
  /\ (exists s d', migrate_thoughts_to_documents gen pkg dry_run d = Ok (s, d')
                   /\ migrated s + skipped s + errors s = total s
                   /\ total s = Z.of_nat (length (thoughts d))).
Proof. split; [apply migrate_tweets_returns | apply migrate_thoughts_returns]. Qed.


End MigrationFacts.

(** *** How the records end, and a second run *)

Section MigrationOutcomeFacts.
Context `{PyLib}.
Variable gen : pyval -> pyval -> pyval -> result string.
Import Database Migrate.

Section OutcomeLoopFacts.
Variable pkg : package.
Variable key : string.
Variable identity : Row -> pyval -> result (pyval * string).
Variable document : Row -> pyval -> pyval -> result (list (string * pyval)).

#[local] Abbreviation has_key := (Migrate.has_key key).
#[local] Abbreviation settled := (Migrate.settled pkg key identity document).
#[local] Abbreviation dry_outcome := (Migrate.dry_outcome pkg key identity document).
#[local] Abbreviation count_rows := (Migrate.count_rows pkg key identity document).
#[local] Abbreviation batch_outcomes := (Migrate.batch_outcomes pkg key identity document).

Lemma batch_outcomes_length dry rows : forall d,
  length (batch_outcomes dry d rows) = length rows.
Proof.
  induction rows as [|row rows IH]; intros d; simpl; [reflexivity|].
  destruct (row_result _ _ _ _ _ _ _) as [[o d']|e]; simpl; now rewrite IH.
Qed.

Lemma try_body_skipped dry row kv d d' :
  try_body pkg identity document dry row kv d = Ok (Skipped, d') -> d' = d.
Proof.
  unfold try_body. destruct (identity row kv) as [[parsed doc_id]|e]; simpl; [|discriminate].
  destruct (probe d doc_id); [now intros [= <-]|].
  destruct (document row kv parsed); simpl; [|discriminate].
  destruct (if dry then _ else _); simpl; discriminate.
Qed.

Lemma count_outcomes_cons p r l :
  count_outcomes p (r :: l) = (if p r then 1 else 0) + count_outcomes p l.
Proof. unfold count_outcomes. simpl. destruct (p r); simpl; lia. Qed.

(** The counters count how the records end, each in its turn. *)
Lemma loop_outcomes dry rows : forall st,
  Forall has_key rows ->
  exists st',
    for_each (record_step pkg key identity document dry) st rows = Ok st'
    /\ n_migrated st'
       = n_migrated st + count_outcomes is_migrated (batch_outcomes dry (db st) rows)
    /\ n_skipped st'
       = n_skipped st + count_outcomes is_skipped (batch_outcomes dry (db st) rows)
    /\ n_errors st'
       = n_errors st + count_outcomes is_error (batch_outcomes dry (db st) rows).
Proof.
  induction rows as [|row rows IH]; intros st Hall.
  - exists st. unfold count_outcomes. simpl. repeat split; lia.
  - inversion_clear Hall as [|? ? [kv Hk] Hrows]. simpl.
    rewrite (record_step_after pkg key identity document dry st row kv Hk).
    unfold row_result. rewrite Hk.
    destruct (try_body pkg identity document dry row kv (db st)) as [[[|] d']|e] eqn:E;
      simpl.
    + apply try_body_skipped in E as ->.
      match goal with |- context [for_each _ ?s rows] =>
        destruct (IH s Hrows) as (st' & -> & Hm & Hs & He)
      end.
      exists st'. split; [reflexivity|]. simpl in *.
      rewrite !count_outcomes_cons. simpl. repeat split; lia.
    + match goal with |- context [for_each _ ?s rows] =>
        destruct (IH s Hrows) as (st' & -> & Hm & Hs & He)
      end.
      exists st'. split; [reflexivity|]. simpl in *.
      rewrite !count_outcomes_cons. simpl. repeat split; lia.
    + match goal with |- context [for_each _ ?s rows] =>
        destruct (IH s Hrows) as (st' & -> & Hm & Hs & He)
      end.
      exists st'. split; [reflexivity|]. simpl in *.
      rewrite !count_outcomes_cons. simpl. repeat split; lia.
Qed.

(** A record against a database [late] that has every document of the run:
    if the run migrated or skipped it, it is there; if it raises against
    [late], it raised in the run. *)
Lemma late_step dry st row kv late :
  row_get row key = Ok kv ->
  let st1 := after_record st kv
               (try_body pkg identity document dry row kv (db st)) in
  dom (documents (db st)) ⊆ dom (documents (db st1))
  /\ (dom (documents (db st1)) ⊆ dom (documents late) ->
      (if is_error (dry_outcome late row) then 1 else 0)
        <= n_errors st1 - n_errors st
      /\ (dry = false ->
          (n_migrated st1 - n_migrated st) + (n_skipped st1 - n_skipped st)
          <= (if is_skipped (dry_outcome late row) then 1 else 0))).
Proof.
  intros Hk. unfold Migrate.dry_outcome. rewrite Hk. unfold try_body.
  destruct (identity row kv) as [[parsed doc_id]|e]; simpl.
  2:{ split; [reflexivity|]. intros _. split; [lia|]. intros _. lia. }
  destruct (probe (db st) doc_id) eqn:Ep; simpl.
  { split; [reflexivity|]. intros Hsub.
    assert (probe late doc_id = true) as ->.
    { apply probe_dom. apply probe_dom in Ep. set_solver. }
    simpl. split; [lia|]. intros _. lia. }
  destruct (document row kv parsed) as [kwargs|e]; simpl.
  2:{ split; [reflexivity|]. intros _.
      destruct (probe late doc_id); simpl; split; try lia; intros _; lia. }
  destruct dry; simpl.
  { split; [reflexivity|]. intros _.
    destruct (probe late doc_id); simpl; split; try lia; discriminate. }
  destruct (insert_document_cases pkg doc_id kwargs) as [[e He]|[values Hv]].
  - rewrite He. simpl. split; [reflexivity|]. intros _.
    destruct (probe late doc_id); simpl; split; try lia; intros _; lia.
  - rewrite Hv. simpl. split; [rewrite dom_insert_L; set_solver|]. intros Hsub.
    assert (probe late doc_id = true) as ->.
    { apply probe_dom. apply Hsub. rewrite dom_insert_L. set_solver. }
    simpl. split; [lia|]. intros _. lia.
Qed.

Lemma late_run dry rows : forall st,
  Forall has_key rows ->
  exists st',
    for_each (record_step pkg key identity document dry) st rows = Ok st'
    /\ dom (documents (db st)) ⊆ dom (documents (db st'))
    /\ forall late,
         dom (documents (db st')) ⊆ dom (documents late) ->
         count_rows is_error late rows <= n_errors st' - n_errors st
         /\ (dry = false ->
             (n_migrated st' - n_migrated st) + (n_skipped st' - n_skipped st)
             <= count_rows is_skipped late rows).
Proof.
  induction rows as [|row rows IH]; intros st Hall.
  - exists st. unfold Migrate.count_rows. simpl.
    split; [reflexivity|]. split; [reflexivity|]. intros late _. split; [lia|]. intros _. lia.
  - inversion_clear Hall as [|? ? [kv Hk] Hrows]. simpl.
    rewrite (record_step_after pkg key identity document dry st row kv Hk).
    pose proof (late_step dry st row kv) as Hstep.
    destruct (IH (after_record st kv
                    (try_body pkg identity document dry row kv (db st))) Hrows)
      as (st' & -> & Hdom' & Hlate).
    exists st'. split; [reflexivity|].
    destruct (Hstep (db st') Hk) as [Hdom1 _].
    split; [etransitivity; eassumption|].
    intros late Hsub.
    destruct (Hstep late Hk) as [_ Hrow].
    destruct Hrow as [He Hs]; [etransitivity; eassumption|].
    destruct (Hlate late Hsub) as [He' Hs'].
    rewrite !count_rows_cons. split; [lia|]. intros Hdry.
    specialize (Hs Hdry). specialize (Hs' Hdry). lia.
Qed.

Lemma count_rows_le p d rows : count_rows p d rows <= Z.of_nat (length rows).
Proof.
  unfold Migrate.count_rows. apply inj_le. induction rows as [|row rows IH]; simpl; [lia|].
  destruct (p _); simpl; lia.
Qed.

(** On settled records the run that writes skips exactly the records
    that a dry run skips. *)
Lemma settled_run_skipped rows : forall st,
  Forall has_key rows ->
  Forall (settled (dom (documents (db st)))) rows ->
  exists st',
    for_each (record_step pkg key identity document false) st rows = Ok st'
    /\ db st' = db st
    /\ n_skipped st' = n_skipped st + count_rows is_skipped (db st) rows.
Proof.
  induction rows as [|row rows IH]; intros st Hall Hset.
  - exists st. unfold Migrate.count_rows. simpl. repeat split; lia.
  - inversion_clear Hall as [|? ? [kv Hk] Hrows].
    inversion_clear Hset as [|? ? Hrow Hset']. simpl.
    rewrite (record_step_after pkg key identity document false st row kv Hk).
    specialize (Hrow kv (db st) Hk (reflexivity _)).
    rewrite count_rows_cons. unfold Migrate.dry_outcome at 1. rewrite Hk.
    set (st1 := after_record st kv _).
    assert (db st1 = db st
            /\ n_skipped st1
               = n_skipped st
                 + (if is_skipped
                         match try_body pkg identity document true row kv (db st) with
                         | Ok (o, _) => Ok o
                         | Raise e => Raise e
                         end then 1 else 0)) as (Hdb & Hs).
    { subst st1. revert Hrow. unfold after_record, try_body.
      destruct (identity row kv) as [[parsed doc_id]|e]; simpl; [|split; [reflexivity | lia]].
      destruct (probe (db st) doc_id); simpl; [split; [reflexivity | lia]|].
      destruct (document row kv parsed) as [kwargs|e]; simpl; [|split; [reflexivity | lia]].
      destruct (insert_document pkg doc_id kwargs (db st)); simpl;
        [contradiction | split; [reflexivity | lia]]. }
    destruct (IH st1 Hrows) as (st' & -> & Hdb' & Hs').
    { now rewrite Hdb. }
    exists st'. split; [reflexivity|]. rewrite Hdb in *. split; [congruence | lia].
Qed.

Lemma migrate_rows_outcomes dry rows d :
  Forall has_key rows ->
  exists s d',
    migrate_rows pkg key identity document dry rows d = Ok (s, d')
    /\ total s = Z.of_nat (length rows)
    /\ migrated s = count_outcomes is_migrated (batch_outcomes dry d rows)
    /\ skipped s = count_outcomes is_skipped (batch_outcomes dry d rows)
    /\ errors s = count_outcomes is_error (batch_outcomes dry d rows)
    /\ count_rows is_error d' rows <= errors s.
Proof.
  intros Hall. unfold migrate_rows.
  destruct (loop_outcomes dry rows
              {| n_migrated := 0; n_skipped := 0; n_errors := 0;
                 key_local := None; db := d |} Hall)
    as (st' & Hrun & Hm & Hs & He).
  destruct (late_run dry rows
              {| n_migrated := 0; n_skipped := 0; n_errors := 0;
                 key_local := None; db := d |} Hall)
    as (st2 & Hrun2 & _ & Hlate).
  rewrite Hrun in Hrun2. injection Hrun2 as <-. rewrite Hrun. simpl in *.
  eexists _, _. split; [reflexivity|]. simpl.
  destruct (Hlate (db st') (reflexivity _)) as [Hle _].
  repeat split; lia.
Qed.

(** A run that writes: what it leaves, and where its records are then. *)
Lemma migrate_rows_write rows d :
  Forall has_key rows ->
  exists s d',
    migrate_rows pkg key identity document false rows d = Ok (s, d')
    /\ tweets d' = tweets d /\ thoughts d' = thoughts d
    /\ dom (documents d) ⊆ dom (documents d')
    /\ Forall (settled (dom (documents d'))) rows
    /\ migrated s + skipped s + errors s = Z.of_nat (length rows)
    /\ forall late, dom (documents d') ⊆ dom (documents late) ->
         migrated s + skipped s <= count_rows is_skipped late rows.
Proof.
  intros Hall.
  destruct (migrate_rows_first gen pkg key identity document rows d Hall)
    as (s & d' & Hrun & Ht & Hth & Hdom & Hset).
  destruct (migrate_rows_counts pkg key identity document false rows d Hall)
    as (s2 & d2 & Hrun2 & Hsum & Htot & _).
  rewrite Hrun in Hrun2. injection Hrun2 as <- <-.
  exists s, d'. repeat split; try assumption; [lia|].
  intros late Hsub. revert Hrun. unfold migrate_rows.
  destruct (late_run false rows
              {| n_migrated := 0; n_skipped := 0; n_errors := 0;
                 key_local := None; db := d |} Hall)
    as (st' & -> & _ & Hlate).
  simpl. intros [= <- <-]. simpl in *.
  destruct (Hlate late Hsub) as [_ Hs]. specialize (Hs eq_refl). lia.
Qed.

(** A run that writes, over records that are settled. *)
Lemma migrate_rows_again rows d :
  Forall has_key rows ->
  Forall (settled (dom (documents d))) rows ->
  exists s,
    migrate_rows pkg key identity document false rows d = Ok (s, d)
    /\ migrated s = 0
    /\ skipped s + errors s = Z.of_nat (length rows)
    /\ skipped s = count_rows is_skipped d rows.
Proof.
  intros Hall Hset.
  destruct (migrate_rows_settled pkg key identity document rows d Hall Hset)
    as (s & Hrun & Hm & Hs).
  destruct (migrate_rows_counts pkg key identity document false rows d Hall)
    as (s2 & d2 & Hrun2 & Hsum & Htot & _).
  rewrite Hrun in Hrun2. injection Hrun2 as <- <-.
  exists s. repeat split; try assumption; [lia|].
  revert Hrun. unfold migrate_rows.
  destruct (settled_run_skipped rows
              {| n_migrated := 0; n_skipped := 0; n_errors := 0;
                 key_local := None; db := d |} Hall Hset)
    as (st' & -> & _ & Hsk).
  simpl. intros [= <- _]. simpl in *. lia.
Qed.

End OutcomeLoopFacts.

Lemma select_tweets_length d : length (select_tweets d) = length (tweets d).
Proof. unfold select_tweets. apply length_map. Qed.

Lemma select_thoughts_length d : length (select_thoughts d) = length (thoughts d).
Proof. unfold select_thoughts. apply length_map. Qed.



End MigrationOutcomeFacts.


(** ** The indexer *)

Section IndexerFacts.
Context `{PyLib}.
Import Database Indexer.

Lemma records_loop records : forall st,
  let st' := fold_left record_step records st in
  consumed st' = (consumed st + length records)%nat
  /\ n_documents (cnt st') + n_errors (cnt st')
     = n_documents (cnt st) + n_errors (cnt st) + Z.of_nat (length records).
Proof.
  induction records as [|r records IH]; intros st; simpl; [split; lia|].
  destruct (IH (record_step st r)) as [Hc Hn]. rewrite Hc, Hn.
  unfold record_step.
  destruct (py_eq_str _ "document"); [|simpl; split; lia].
  destruct (_index_document r (db st)); simpl; split; lia.
Qed.

(** X17: with a valid source [index_from_adapter] returns, and every
    record is taken from [parse()] and counted once, as a document or as
    an error. *)
Lemma valid_source_counts adapter d :
  validate_source adapter = true ->
  exists c,
    returned (index_from_adapter adapter d) = Ok c
    /\ n_documents c + n_errors c = Z.of_nat (length (parse adapter))
    /\ records_consumed (index_from_adapter adapter d) = length (parse adapter).
Proof.
  intros Hv. unfold index_from_adapter. rewrite Hv. simpl.
  eexists. split; [reflexivity|].
  destruct (records_loop (parse adapter)
              {| cnt := {| n_documents := 0; n_errors := 0 |};
                 db := d; consumed := 0 |}) as [Hc Hn].
  simpl in *. split; [lia | exact Hc].
Qed.

(** C9: when [validate_source()] returns false, [index_from_adapter]
    raises [ValueError], takes no record from [parse()] and leaves the
    database as it was. *)
Theorem invalid_source_raises adapter d :
  validate_source adapter = false ->
  index_from_adapter adapter d
  = {| returned := Raise ValueError; final_db := d; records_consumed := 0 |}.
Proof. intros Hv. unfold index_from_adapter. now rewrite Hv. Qed.

End IndexerFacts.

(** ** The code run on examples *)

Section Runs.
Import Database Migrate Indexer Examples RefLib.

(** The specification's scenario with the [Database] of [proof_of_self]:
    the tweet is migrated as a twitter document of type tweet, and a
    second migration skips it. *)
Example migrate_hello :
  returned_stats (migrate_tweets_to_documents generate_document_id_dyn proof_of_self false (legacy [tweet_hello] []))
  = Ok {| total := 1; migrated := 1; skipped := 0; errors := 0 |}
  /\ second_run_stats proof_of_self (legacy [tweet_hello] [])
     = Ok ({| total := 1; migrated := 0; skipped := 1; errors := 0 |},
           {| total := 0; migrated := 0; skipped := 0; errors := 0 |}).
Proof. split; vm_compute; reflexivity. Qed.

Example migrate_hello_document :
  match migrate_tweets_to_documents generate_document_id_dyn proof_of_self false (legacy [tweet_hello] []) with
  | Ok (_, d) =>
      map (fun kv => (fst kv, assoc "source_type" (snd kv), assoc "content_type" (snd kv),
                      assoc "author" (snd kv), assoc "metadata" (snd kv)))
          (map_to_list (documents d))
  | Raise _ => []
  end
  = [ (generate_document_id "hello" "twitter://alice/1" "2020-01-01T00:00:00",
       Some (PStr "twitter"), Some (PStr "tweet"), Some (PStr "alice"),
       Some (PStr (String.concat (chr dquote)
               ["{"; "tweet_id"; ": "; "1"; ", "; "username"; ": "; "alice"; ", ";
                "retweet_count"; ": 0, "; "favorite_count"; ": 0, ";
                "is_retweet"; ": false, "; "is_reply"; ": false}"]))) ].
Proof. vm_compute. reflexivity. Qed.

(** A retweet is of type retweet whatever its reply flag. *)
Example migrate_retweet_type :
  match migrate_tweets_to_documents generate_document_id_dyn proof_of_self false (legacy [tweet_retweet] []) with
  | Ok (_, d) => map (fun kv => assoc "content_type" (snd kv)) (map_to_list (documents d))
  | Raise _ => []
  end
  = [Some (PStr "retweet")].
Proof. vm_compute. reflexivity. Qed.

(** With the [Database] of [proof_of_monk], which [migrate.py] imports,
    [insert_document] has no [author] parameter: the call raises
    [TypeError] and the tweet is counted as an error. *)
Example migrate_hello_proof_of_monk :
  migrate_tweets_to_documents generate_document_id_dyn proof_of_monk false (legacy [tweet_hello] [])
  = Ok ({| total := 1; migrated := 0; skipped := 0; errors := 1 |},
        legacy [tweet_hello] []).
Proof. vm_compute. reflexivity. Qed.

(** Bad rows are counted and the batch goes on. *)
Example migrate_with_bad_rows :
  returned_stats (run_full_migration generate_document_id_dyn proof_of_self false
                    (legacy [tweet_bad_timestamp; tweet_hello; tweet_retweet]
                            [thought_bad_tags; thought_note]))
  = Ok {| res_tweets := {| total := 3; migrated := 2; skipped := 0; errors := 1 |};
          res_thoughts := {| total := 2; migrated := 1; skipped := 0; errors := 1 |};
          total_migrated := 3; total_errors := 2; summary_dry_run := false |}.
Proof. vm_compute. reflexivity. Qed.



Lemma invalid_source_raises_witness :
  index_from_adapter invalid_adapter (legacy [] [])
  = {| returned := Raise ValueError; final_db := legacy [] [];
       records_consumed := 0 |}.
Proof. apply invalid_source_raises. reflexivity. Defined.

(** The same record from a valid source is indexed. *)
Example valid_source_indexed :
  let run := index_from_adapter
               {| validate_source := true; parse := parse invalid_adapter |}
               (legacy [] []) in
  returned run = Ok {| n_documents := 1; n_errors := 0 |}
  /\ records_consumed run = 1%nat
  /\ dom (documents (final_db run)) = {[ generate_document_id "hello" "" "" ]}.
Proof. vm_compute. repeat split. Qed.

(** The constructor computes [overlap_size]. *)
Example chunker_init :
  Chunker.init 800 Chunker.percent_15 500 = Ok Chunker.default
  /\ Chunker.init 5 Chunker.percent_15 1 = Ok Chunker.small
  /\ Chunker.init 1 (SFopp (PyFloat.of_int 1)) 1 = Ok Chunker.negative_overlap.
Proof. repeat split; vm_compute; reflexivity. Qed.

(** The small chunker on three sentences without a blank line: the forced
    split at the sentence boundaries. *)
Example chunk_three_sentences :
  match Chunker.chunk_document Chunker.small "doc"
          "One sentence here. Another sentence there! And a third one?" None with
  | Ok cs => map (fun c => (Chunker.chunk_id c, Chunker.content c)) cs
  | Raise _ => []
  end
  = [ ("doc_chunk_0", "One sentence here.");
      ("doc_chunk_1", "Another sentence there!");
      ("doc_chunk_2", "And a third one?") ].
Proof. vm_compute. reflexivity. Qed.

(** A negative [overlap_size] makes [_get_overlap_content] divide by
    zero on a short chunk. *)
Example chunk_document_negative_overlap :
  Chunker.chunk_document Chunker.negative_overlap "doc"
    ("ab" +:+ Chunker.blank_line +:+ "cdefghijklmn") None
  = Raise ZeroDivisionError.
Proof. vm_compute. reflexivity. Qed.

(** A row without its key column, which no SELECT of the migration
    returns, would reach the [except] clause with [tweet_id] unbound. *)
Example row_without_key :
  migrate_rows proof_of_self "tweet_id" (tweet_identity generate_document_id_dyn)
    tweet_document false [[("user_id", PStr "alice")]] (legacy [] [])
  = Raise UnboundLocalError.
Proof. reflexivity. Qed.

End Runs.

(** * Further properties

    Properties of the same code that the specification does not state. *)

(** ** Strings and splitting *)

Section MoreStringFacts.
Import PyStr.

Lemma app_cons c a b : String c a +:+ b = String c (a +:+ b).
Proof. reflexivity. Qed.

Lemma app_empty_l s : "" +:+ s = s.
Proof. reflexivity. Qed.

Lemma app_empty_r s : s +:+ "" = s.
Proof. induction s as [|c s IH]; [reflexivity | now rewrite app_cons, IH]. Qed.

Lemma app_assoc_str a b c : (a +:+ b) +:+ c = a +:+ (b +:+ c).
Proof. induction a as [|x a IH]; [reflexivity | now rewrite !app_cons, IH]. Qed.

Lemma rev_onto_twice s : forall a b, rev_onto a (rev_onto b s) = rev_onto (s +:+ a) b.
Proof.
  induction s as [|c s IH]; intros a b; simpl; [reflexivity|].
  now rewrite IH, app_cons.
Qed.

Lemma rev_involutive s : rev (rev s) = s.
Proof. unfold rev. rewrite rev_onto_twice. simpl. apply app_empty_r. Qed.

Lemma rev_onto_app s : forall acc, rev_onto acc s = rev s +:+ acc.
Proof.
  unfold rev. induction s as [|c s IH]; intros acc; simpl; [reflexivity|].
  rewrite IH, (IH (String c "")), app_assoc_str. reflexivity.
Qed.

Lemma rev_cons c s : rev (String c s) = rev s +:+ String c "".
Proof. unfold rev at 1. simpl. apply rev_onto_app. Qed.

Lemma rev_app a b : rev (a +:+ b) = rev b +:+ rev a.
Proof.
  induction a as [|c a IH].
  - now rewrite app_empty_l, app_empty_r.
  - now rewrite app_cons, !rev_cons, IH, app_assoc_str.
Qed.

Lemma nonspace_chars_app a b :
  nonspace_chars (a +:+ b) = nonspace_chars a +:+ nonspace_chars b.
Proof.
  induction a as [|c a IH]; [reflexivity|].
  rewrite app_cons. simpl. destruct (isspace c); now rewrite IH.
Qed.

Lemma nonspace_chars_rev s : nonspace_chars (rev s) = rev (nonspace_chars s).
Proof.
  induction s as [|c s IH]; simpl; [reflexivity|].
  rewrite rev_cons, nonspace_chars_app, IH. simpl.
  destruct (isspace c); simpl; [apply app_empty_r | now rewrite rev_cons].
Qed.

Lemma nonspace_chars_lstrip s : nonspace_chars (lstrip s) = nonspace_chars s.
Proof.
  induction s as [|c s IH]; simpl; [reflexivity|].
  destruct (isspace c) eqn:E; simpl; [exact IH | now rewrite E].
Qed.

Lemma nonspace_chars_strip s : nonspace_chars (strip s) = nonspace_chars s.
Proof.
  unfold strip, rstrip.
  now rewrite nonspace_chars_rev, nonspace_chars_lstrip, nonspace_chars_rev,
    rev_involutive, nonspace_chars_lstrip.
Qed.

Lemma nonspace_chars_blank s : has_nonspace s = false -> nonspace_chars s = "".
Proof.
  induction s as [|c s IH]; simpl; [reflexivity|].
  destruct (isspace c); simpl; [exact IH | discriminate].
Qed.

Lemma concat_cons x l : String.concat "" (x :: l) = x +:+ String.concat "" l.
Proof. destruct l; simpl; [now rewrite app_empty_r | reflexivity]. Qed.

End MoreStringFacts.

Section SplitFacts.
Import PyStr Chunker.

Lemma re_split_blank_text s : forall cur skip,
  leading_space skip s = true ->
  nonspace_chars (String.concat "" (re_split_blank cur skip s))
  = nonspace_chars (rev cur +:+ s).
Proof.
  induction s as [|c s IH]; intros cur skip Hskip.
  - simpl. now rewrite !app_empty_r.
  - destruct skip as [|k]; simpl.
    + assert (Hpush : nonspace_chars (String.concat "" (re_split_blank (String c cur) 0 s))
                      = nonspace_chars (rev cur +:+ String c s)).
      { rewrite IH by reflexivity. rewrite rev_cons, app_assoc_str. reflexivity. }
      destruct (is_newline c) eqn:Enl; [|exact Hpush].
      destruct (match_ws_nl s) as [n|] eqn:Em; [|exact Hpush].
      rewrite concat_cons, nonspace_chars_app, IH by now apply match_ws_nl_space.
      rewrite !nonspace_chars_app. simpl.
      now rewrite (is_newline_space _ Enl).
    + simpl in Hskip. apply andb_true_iff in Hskip as [Hc Hk].
      rewrite IH by exact Hk. rewrite !nonspace_chars_app. simpl. now rewrite Hc.
Qed.

Lemma re_split_sentence_text s : forall cur prev inside,
  nonspace_chars (String.concat "" (re_split_sentence cur prev inside s))
  = nonspace_chars (rev cur +:+ s).
Proof.
  induction s as [|c s IH]; intros cur prev inside.
  - simpl. now rewrite !app_empty_r.
  - simpl.
    assert (Hpush : forall p i,
              nonspace_chars (String.concat "" (re_split_sentence (String c cur) p i s))
              = nonspace_chars (rev cur +:+ String c s)).
    { intros p i. rewrite IH. rewrite rev_cons, app_assoc_str. reflexivity. }
    destruct (isspace c) eqn:Ec; [|apply Hpush].
    destruct inside.
    + rewrite IH, !nonspace_chars_app. simpl. now rewrite Ec.
    + destruct prev; [|apply Hpush].
      rewrite concat_cons, nonspace_chars_app, IH, !nonspace_chars_app. simpl.
      now rewrite Ec.
Qed.

Lemma strip_nonempty_text pieces :
  nonspace_chars (String.concat "" (strip_nonempty pieces))
  = nonspace_chars (String.concat "" pieces).
Proof.
  unfold strip_nonempty. induction pieces as [|p l IH]; [reflexivity|].
  rewrite filter_cons, (concat_cons p), (nonspace_chars_app p).
  destruct (decide _) as [Hp|Hp].
  - rewrite fmap_cons, concat_cons, nonspace_chars_app, nonspace_chars_strip.
    f_equal. exact IH.
  - rewrite IH. rewrite strip_nonempty_iff in Hp.
    destruct (has_nonspace p) eqn:E; [now destruct Hp|].
    now rewrite (nonspace_chars_blank p E).
Qed.

(** X1: splitting loses only whitespace: the characters of the segments
    of a text that are not whitespace are, in order, those of the text;
    and so are those of its sentences. *)
Theorem splitting_keeps_text content :
  nonspace_chars (String.concat "" (_split_into_segments content))
  = nonspace_chars content
  /\ nonspace_chars (String.concat "" (_split_into_sentences content))
     = nonspace_chars content.
Proof.
  unfold _split_into_segments, _split_into_sentences. rewrite !strip_nonempty_text.
  split.
  - now rewrite re_split_blank_text.
  - now rewrite re_split_sentence_text.
Qed.

End SplitFacts.

(** ** The chunker *)

Section StrippedFacts.
Import PyStr Chunker.

Lemma lstrip_idem s : lstrip (lstrip s) = lstrip s.
Proof.
  induction s as [|c s IH]; simpl; [reflexivity|].
  destruct (isspace c) eqn:E; [exact IH | simpl; now rewrite E].
Qed.

Lemma lstrip_app_visible x c y :
  isspace c = false -> lstrip (x +:+ String c y) = lstrip x +:+ String c y.
Proof.
  intros Hc. induction x as [|c0 x IH]; [simpl; now rewrite Hc|].
  rewrite app_cons. simpl. destruct (isspace c0); [exact IH | reflexivity].
Qed.

Lemma rstrip_cons c s : isspace c = false -> rstrip (String c s) = String c (rstrip s).
Proof.
  intros Hc. unfold rstrip.
  now rewrite rev_cons, lstrip_app_visible, rev_app by exact Hc.
Qed.

Lemma rstrip_idem s : rstrip (rstrip s) = rstrip s.
Proof. unfold rstrip. now rewrite rev_involutive, lstrip_idem. Qed.

Lemma strip_idem s : strip (strip s) = strip s.
Proof.
  unfold strip.
  assert (H : lstrip (rstrip (lstrip s)) = rstrip (lstrip s)).
  { induction s as [|c s IH]; [reflexivity|]. simpl.
    destruct (isspace c) eqn:E; [exact IH|].
    rewrite rstrip_cons by exact E. simpl. now rewrite E. }
  now rewrite H, rstrip_idem.
Qed.

Lemma strip_nonempty_stripped pieces :
  Forall (fun s => strip s = s /\ s <> "") (strip_nonempty pieces).
Proof.
  apply Forall_forall. unfold strip_nonempty.
  intros x (p & -> & Hp)%list_elem_of_fmap.
  apply list_elem_of_filter in Hp as [Hp _].
  split; [apply strip_idem|]. intros E. now rewrite E in Hp.
Qed.

(** X2: every segment and every sentence is non-empty and has no
    whitespace at either end: [strip] leaves it as it is. *)
Theorem pieces_are_stripped text :
  Forall (fun s => strip s = s /\ s <> "") (_split_into_segments text)
  /\ Forall (fun s => strip s = s /\ s <> "") (_split_into_sentences text).
Proof. split; apply strip_nonempty_stripped. Qed.

End StrippedFacts.

Section MoreChunkerFacts.
Import PyStr Chunker.

(** *** Chunk ids *)

Lemma str_of_int_inj a b : str_of_int a = str_of_int b -> a = b.
Proof.
  unfold str_of_int. intros Heq. apply DecimalZ.to_int_inj.
  assert (Hisi : forall z, NilZero.int_of_string (NilZero.string_of_int (Z.to_int z))
                           = Some (Z.to_int z)).
  { intros z. apply NilZero.isi; destruct z; simpl; intros [= E];
      now apply DecimalPos.Unsigned.to_uint_nonnil in E. }
  pose proof (Hisi a) as Ha. rewrite Heq, Hisi in Ha. now injection Ha.
Qed.

Lemma chunk_ids_of_indices d md cs :
  Forall (fun c => exists i text, c = _create_chunk d i text md) cs ->
  map chunk_id cs = map (fun i => d +:+ "_chunk_" +:+ str_of_int i) (map chunk_index cs)
  /\ Forall (fun c => Chunker.document_id c = d) cs.
Proof.
  induction 1 as [|c cs (i & text & ->) _ [IHid IHdoc]]; [split; [reflexivity | constructor]|].
  split; [simpl; now rewrite IHid | constructor; [reflexivity | exact IHdoc]].
Qed.

(** X5: the chunks of a document carry its id, their ids are
    [<document_id>_chunk_<chunk_index>], and no two have the same id. *)
Theorem chunk_ids_distinct self document_id content metadata cs :
  chunk_document self document_id content metadata = Ok cs ->
  Forall (fun c => Chunker.document_id c = document_id
                   /\ chunk_id c = document_id +:+ "_chunk_" +:+ str_of_int (chunk_index c)) cs
  /\ NoDup (map chunk_id cs).
Proof.
  intros (Hidx & Hmade & _)%chunk_document_spec.
  split.
  - eapply Forall_impl; [exact Hmade|]. now intros c (i & text & ->).
  - destruct (chunk_ids_of_indices _ _ _ Hmade) as [-> _]. rewrite Hidx.
    apply NoDup_fmap_2_strong; [|apply NoDup_seqZ].
    intros i j _ _ Hij. apply (inj (String.app _)) in Hij.
    apply (inj (String.app _)) in Hij. now apply str_of_int_inj.
Qed.

Lemma chunk_ids_distinct_witness :
  exists cs,
    chunk_document small "doc" "One sentence here. Another sentence there! And a third one?" None
    = Ok cs
    /\ cs <> []
    /\ NoDup (map chunk_id cs).
Proof.
  destruct (chunk_document small "doc"
              "One sentence here. Another sentence there! And a third one?" None)
    as [cs|e] eqn:E; [|vm_compute in E; discriminate].
  exists cs. split; [reflexivity|].
  split; [intros ->; vm_compute in E; discriminate|].
  exact (proj2 (chunk_ids_distinct _ _ _ _ _ E)).
Defined.

(** *** No blank chunk *)

Lemma has_nonspace_app a b : has_nonspace (a +:+ b) = has_nonspace a || has_nonspace b.
Proof.
  induction a as [|c a IH]; [reflexivity|].
  rewrite app_cons. simpl. rewrite IH. now destruct (isspace c).
Qed.

Lemma has_nonspace_join sep x l :
  has_nonspace x = true -> has_nonspace (join sep (x :: l)) = true.
Proof.
  intros Hx. unfold join. destruct l; simpl; [exact Hx|].
  now rewrite has_nonspace_app, Hx.
Qed.

Lemma all_nonspace_rev_onto acc s :
  all_nonspace (rev_onto acc s) = all_nonspace acc && all_nonspace s.
Proof.
  revert acc; induction s as [|c s IH]; intros acc; simpl.
  - now rewrite andb_true_r.
  - rewrite IH. simpl. destruct (isspace c), (all_nonspace acc); reflexivity.
Qed.

Lemma is_word_has_nonspace w : is_word w = true -> has_nonspace w = true.
Proof.
  unfold is_word. destruct w as [|c w]; simpl; [discriminate|].
  now destruct (isspace c).
Qed.

(** [s.split()] returns words. *)
Lemma split_ws_go_words s : forall cur,
  all_nonspace cur = true -> Forall (fun w => is_word w = true) (split_ws_go cur s).
Proof.
  assert (Hrev : forall cur, all_nonspace cur = true -> nonempty cur = true ->
                             is_word (rev cur) = true).
  { intros cur Ha Hn. unfold is_word, rev.
    rewrite nonempty_rev_onto, all_nonspace_rev_onto, Ha, Hn. reflexivity. }
  induction s as [|c s IH]; intros cur Hcur; simpl.
  - destruct (nonempty cur) eqn:E; repeat constructor. now apply Hrev.
  - destruct (isspace c) eqn:Ec.
    + destruct (nonempty cur) eqn:E; [constructor; [now apply Hrev|]|]; now apply IH.
    + apply IH. simpl. now rewrite Ec.
Qed.

Lemma split_ws_words s : Forall (fun w => is_word w = true) (split_ws s).
Proof. now apply split_ws_go_words. Qed.

Lemma last_n_suffix {A} k (l : list A) : last_n k l `suffix_of` l.
Proof. apply suffix_drop. Qed.

(** What is carried over is blank or has a visible character. *)
Lemma get_overlap_content_visible self cs ov :
  _get_overlap_content self cs = Ok ov ->
  Forall (fun u => has_nonspace u = true) cs ->
  nonempty ov = true -> has_nonspace ov = true.
Proof.
  unfold _get_overlap_content. intros H Hcs Hne.
  destruct cs as [|c cs]; [injection H as <-; discriminate|].
  inversion_clear Hcs as [|? ? Hc _].
  destruct (_ <=? overlap_size self).
  { injection H as <-. now apply has_nonspace_join. }
  destruct (_ =? 0); [discriminate|].
  destruct (0 <? _); [|injection H as <-; discriminate].
  injection H as <-.
  match goal with |- context [last_n ?k ?l] =>
    pose proof (last_n_suffix k l) as [pre Hpre];
    assert (Hw : Forall (fun w => is_word w = true) l) by apply split_ws_words;
    rewrite Hpre in Hw; apply Forall_app in Hw as [_ Hw];
    destruct (last_n k l) as [|w ws]; [discriminate|]
  end.
  inversion_clear Hw as [|? ? Hword _].
  now apply has_nonspace_join, is_word_has_nonspace.
Qed.

Lemma pack_visible self d md sep st u st' :
  pack self d md sep st u = Ok st' ->
  has_nonspace u = true ->
  visible_inv st -> visible_inv st'.
Proof.
  unfold pack, visible_inv. intros H Hu [Hch Hcur].
  destruct (chunk_size self <? _).
  - set (st1 := match current_chunk_content st with [] => st | _ => _ end) in H.
    assert (Hcur1 : current_chunk_content st1 = current_chunk_content st).
    { subst st1. destruct (current_chunk_content st) eqn:E; simpl; congruence. }
    assert (Hch1 : Forall (fun c => has_nonspace (content c) = true) (chunks st1)).
    { subst st1. destruct (current_chunk_content st) as [|x l] eqn:E; [exact Hch|].
      simpl. apply Forall_app. split; [exact Hch|]. constructor; [|constructor].
      simpl. inversion_clear Hcur. now apply has_nonspace_join. }
    rewrite Hcur1 in H.
    destruct (_get_overlap_content self (current_chunk_content st)) as [ov|e] eqn:Eov;
      [|discriminate].
    simpl in H. injection H as <-. simpl. split; [exact Hch1|].
    destruct (nonempty ov) eqn:En; repeat constructor; try exact Hu.
    eapply get_overlap_content_visible; eauto.
  - injection H as <-. simpl. split; [exact Hch|].
    apply Forall_app. split; [exact Hcur | now constructor].
Qed.

Lemma segment_step_visible self d md st segment st' :
  segment_step self d md st segment = Ok st' ->
  has_nonspace segment = true ->
  visible_inv st -> visible_inv st'.
Proof.
  unfold segment_step. intros H Hseg Hinv.
  destruct (PyFloat.of_int_checked _) as [size|e]; [simpl in H|discriminate].
  destruct (PyFloat.int_gt _ _); [|eapply pack_visible; eauto].
  eapply (for_each_inv visible_inv (fun u => has_nonspace u = true)); [| |  |exact H].
  - intros s x s' Hs Hx Hp. eapply pack_visible; eauto.
  - exact Hinv.
  - apply Forall_forall. intros x Hx. eapply strip_nonempty_elem, Hx.
Qed.

(** X4: no chunk that [chunk_document] returns is empty or whitespace
    only. *)
Theorem chunks_have_text self document_id content metadata cs :
  chunk_document self document_id content metadata = Ok cs ->
  Forall (fun c => has_nonspace (Chunker.content c) = true) cs.
Proof.
  unfold chunk_document. destruct (should_chunk self content); simpl.
  2:{ intros [= <-]. constructor. }
  destruct (for_each _ _ _) as [st|e] eqn:E; [|discriminate]. simpl.
  assert (Hinv : visible_inv st).
  { eapply (for_each_inv visible_inv (fun u => has_nonspace u = true));
      [| |apply segments_have_nonspace|exact E].
    - intros s x s' Hs Hx Hp. eapply segment_step_visible; eauto.
    - split; constructor. }
  destruct Hinv as [Hch Hcur].
  destruct (current_chunk_content st) as [|x l]; intros [= <-]; [exact Hch|].
  apply Forall_app. split; [exact Hch|]. constructor; [|constructor].
  simpl. inversion_clear Hcur. now apply has_nonspace_join.
Qed.

Lemma chunks_have_text_witness :
  exists cs,
    chunk_document small "doc" "One sentence here. Another sentence there! And a third one?" None
    = Ok cs
    /\ cs <> []
    /\ Forall (fun c => has_nonspace (Chunker.content c) = true) cs.
Proof.
  destruct (chunk_document small "doc"
              "One sentence here. Another sentence there! And a third one?" None)
    as [cs|e] eqn:E; [|vm_compute in E; discriminate].
  exists cs. split; [reflexivity|].
  split; [intros ->; vm_compute in E; discriminate|].
  exact (chunks_have_text _ _ _ _ _ E).
Defined.

(** *** Errors *)

Lemma for_each_raises {A S : Type} (P : exn -> Prop) (body : S -> A -> result S) :
  (forall s x e, body s x = Raise e -> P e) ->
  forall l s e, for_each body s l = Raise e -> P e.
Proof.
  intros Hbody l; induction l as [|x l IH]; intros s e; simpl; [discriminate|].
  destruct (body s x) as [s1|e1] eqn:E; [apply IH|].
  intros [= <-]. eapply Hbody, E.
Qed.

(** The division by [tokens] needs a negative [overlap_size] to fail. *)
Lemma get_overlap_content_raises self cs e :
  _get_overlap_content self cs = Raise e -> overlap_size self < 0.
Proof.
  unfold _get_overlap_content. destruct cs as [|c cs]; [discriminate|].
  destruct (_ <=? overlap_size self) eqn:E; [discriminate|].
  apply Z.leb_gt in E.
  destruct (_ =? 0) eqn:E0; [|now destruct (0 <? _)].
  apply Z.eqb_eq in E0. intros _. lia.
Qed.

Lemma pack_raises self d md sep st u e :
  pack self d md sep st u = Raise e -> overlap_size self < 0.
Proof.
  unfold pack. destruct (chunk_size self <? _); [|discriminate].
  match goal with |- context [_get_overlap_content self ?cs] =>
    destruct (_get_overlap_content self cs) as [ov|e1] eqn:E
  end; [discriminate|].
  intros _. eapply get_overlap_content_raises, E.
Qed.

Lemma segment_step_raises self d md st segment e :
  segment_step self d md st segment = Raise e ->
  overlap_size self < 0
  \/ (e = OverflowError /\ PyFloat.overflow_threshold <= Z.abs (chunk_size self)).
Proof.
  unfold segment_step, PyFloat.of_int_checked.
  destruct (_ <=? Z.abs _) eqn:E; simpl.
  { intros [= <-]. right. split; [reflexivity | now apply Z.leb_le]. }
  intros H. left. destruct (PyFloat.int_gt _ _); [|now apply pack_raises in H].
  eapply (for_each_raises (fun _ => overlap_size self < 0)); [|exact H].
  intros s x e1 Hp. eapply pack_raises, Hp.
Qed.

(** X7: [chunk_document] can only raise when [overlap_size] is
    negative, or, with [OverflowError], when [chunk_size] is beyond the
    range of a float. *)
Theorem chunk_document_raises self document_id content metadata e :
  chunk_document self document_id content metadata = Raise e ->
  overlap_size self < 0
  \/ (e = OverflowError /\ PyFloat.overflow_threshold <= Z.abs (chunk_size self)).
Proof.
  unfold chunk_document. destruct (should_chunk self content); simpl; [|discriminate].
  destruct (for_each _ _ _) as [st|e1] eqn:E; simpl.
  { now destruct (current_chunk_content st). }
  intros [= <-].
  eapply (for_each_raises
            (fun e => overlap_size self < 0
                      \/ (e = OverflowError
                          /\ PyFloat.overflow_threshold <= Z.abs (chunk_size self))));
    [|exact E].
  intros s x e2 Hs. eapply segment_step_raises, Hs.
Qed.

Lemma chunk_document_raises_witness :
  chunk_document negative_overlap "doc" ("ab" +:+ blank_line +:+ "cdefghijklmn") None
  = Raise ZeroDivisionError
  /\ overlap_size negative_overlap < 0.
Proof.
  assert (H : chunk_document negative_overlap "doc"
                ("ab" +:+ blank_line +:+ "cdefghijklmn") None = Raise ZeroDivisionError)
    by (vm_compute; reflexivity).
  split; [exact H|].
  destruct (chunk_document_raises _ _ _ _ _ H) as [Hneg|[Hover _]];
    [exact Hneg | discriminate].
Defined.

End MoreChunkerFacts.

Section OverlapFacts.
Import PyStr Chunker.

Lemma split_ws_go_word w : forall cur s,
  all_nonspace w = true ->
  split_ws_go cur (w +:+ s) = split_ws_go (rev_onto cur w) s.
Proof.
  induction w as [|c w IH]; intros cur s Hw; [reflexivity|].
  simpl in Hw. apply andb_true_iff in Hw as [Hc Hw].
  rewrite app_cons. simpl. destruct (isspace c); [discriminate|]. now apply IH.
Qed.

Lemma split_ws_go_end cur :
  nonempty cur = true -> split_ws_go cur "" = [rev cur].
Proof. simpl. now intros ->. Qed.

(** [" ".join(words).split()] gives the words back. *)
Lemma split_ws_join ws :
  Forall (fun w => is_word w = true) ws -> split_ws (join " " ws) = ws.
Proof.
  unfold split_ws, join.
  induction 1 as [|w ws Hw Hws IH]; [reflexivity|].
  unfold is_word in Hw. apply andb_true_iff in Hw as [Hne Hall].
  assert (Hrev : rev (rev_onto "" w) = w) by apply rev_involutive.
  assert (Hne' : nonempty (rev_onto "" w) = true) by now rewrite nonempty_rev_onto, Hne.
  destruct ws as [|w2 ws].
  - simpl. rewrite <- (app_empty_r w) at 1.
    rewrite split_ws_go_word by exact Hall. rewrite split_ws_go_end by exact Hne'.
    now rewrite Hrev.
  - change (String.concat " " (w :: w2 :: ws))
      with (w +:+ String " " (String.concat " " (w2 :: ws))).
    rewrite split_ws_go_word by exact Hall.
    simpl split_ws_go at 1. rewrite Hne', Hrev. f_equal. exact IH.
Qed.

(** X6: the text that [_get_overlap_content] carries over to the next
    chunk is made of the last words of the units it is taken from, in
    their order. *)
Theorem overlap_is_trailing_words self units overlap :
  _get_overlap_content self units = Ok overlap ->
  split_ws overlap `suffix_of` split_ws (join " " units).
Proof.
  unfold _get_overlap_content. destruct units as [|u units].
  { intros [= <-]. reflexivity. }
  destruct (_ <=? overlap_size self); [now intros [= <-]|].
  destruct (_ =? 0); [discriminate|].
  destruct (0 <? _); intros [= <-]; [|apply suffix_nil].
  match goal with |- context [last_n ?k ?l] =>
    pose proof (last_n_suffix k l) as Hsuf;
    assert (Hw : Forall (fun w => is_word w = true) l) by apply split_ws_words;
    destruct Hsuf as [pre Hpre]; rewrite Hpre in Hw; apply Forall_app in Hw as [_ Hw];
    rewrite (split_ws_join _ Hw); exists pre; exact Hpre
  end.
Qed.

Lemma overlap_is_trailing_words_witness :
  _get_overlap_content default [join " " (repeat "word"%string 200)]
  = Ok (join " " (repeat "word"%string 96))
  /\ split_ws (join " " (repeat "word"%string 96))
     `suffix_of` split_ws (join " " [join " " (repeat "word"%string 200)]).
Proof.
  assert (H : _get_overlap_content default [join " " (repeat "word"%string 200)]
              = Ok (join " " (repeat "word"%string 96)))
    by (vm_compute; reflexivity).
  split; [exact H|]. exact (overlap_is_trailing_words _ _ _ H).
Defined.

End OverlapFacts.

Section CoverageFacts.
Import PyStr Chunker.

Lemma occurs_in_join sep l u : u ∈ l -> occurs_in u (join sep l).
Proof.
  unfold join. induction 1 as [u l|u x l Hin IH].
  - exists "". destruct l as [|y l]; simpl.
    + exists "". now rewrite app_empty_r.
    + now exists (sep +:+ String.concat sep (y :: l)).
  - destruct IH as (a & b & IH). destruct l as [|y l].
    + now apply elem_of_nil in Hin.
    + change (String.concat sep (x :: y :: l))
        with (x +:+ sep +:+ String.concat sep (y :: l)).
      rewrite IH. exists (x +:+ sep +:+ a), b. now rewrite !app_assoc_str.
Qed.

Lemma pack_keeps self d md sep st u st' :
  pack self d md sep st u = Ok st' ->
  kept st' u /\ forall v, kept st v -> kept st' v.
Proof.
  unfold pack, kept. intros H.
  destruct (chunk_size self <? _).
  - destruct (current_chunk_content st) as [|x l] eqn:Ecur.
    + simpl in H. rewrite Ecur in H. simpl in H. injection H as <-. simpl. split.
      * right. left.
      * intros v [Hv|Hv]; [now left | now apply elem_of_nil in Hv].
    + cbn [current_chunk_content chunks next_chunk_index] in H.
      destruct (_get_overlap_content self (x :: l)) as [ov|e]; [|discriminate].
      simpl in H. injection H as <-. simpl. split.
      * right. destruct (nonempty ov); set_solver.
      * intros v [(c & Hc & Hv)|Hv]; left.
        -- exists c. split; [set_solver | exact Hv].
        -- eexists. split; [apply elem_of_app; right; left|].
           exact (occurs_in_join sep (x :: l) v Hv).
  - injection H as <-. simpl. split; [right; set_solver|].
    intros v [Hv|Hv]; [now left | right; set_solver].
Qed.

Lemma sentences_loop_keeps self d md sentences : forall st st',
  for_each (pack self d md " ") st sentences = Ok st' ->
  Forall (kept st') sentences /\ forall v, kept st v -> kept st' v.
Proof.
  induction sentences as [|u us IH]; intros st st'; simpl.
  - intros [= <-]. split; [constructor | auto].
  - destruct (pack self d md " " st u) as [st1|e] eqn:E; [|discriminate].
    apply pack_keeps in E as [Hu Hmono]. intros [Hus Hmono']%IH.
    split; [constructor; auto | auto].
Qed.

Lemma segment_step_keeps self d md st segment st' :
  segment_step self d md st segment = Ok st' ->
  segment_kept st' segment /\ forall v, kept st v -> kept st' v.
Proof.
  unfold segment_step, segment_kept. intros H.
  destruct (PyFloat.of_int_checked _) as [size|e]; [simpl in H|discriminate].
  destruct (PyFloat.int_gt _ _).
  - apply sentences_loop_keeps in H as [Hs Hmono]. auto.
  - apply pack_keeps in H as [Hu Hmono]. auto.
Qed.

Lemma segment_kept_mono st st' segment :
  (forall v, kept st v -> kept st' v) -> segment_kept st segment -> segment_kept st' segment.
Proof.
  intros Hmono [Hk|Hk]; [left; auto | right].
  eapply Forall_impl; [exact Hk | auto].
Qed.

Lemma segments_loop_keeps self d md segments : forall st st',
  for_each (segment_step self d md) st segments = Ok st' ->
  Forall (segment_kept st') segments /\ forall v, kept st v -> kept st' v.
Proof.
  induction segments as [|u us IH]; intros st st'; simpl.
  - intros [= <-]. split; [constructor | auto].
  - destruct (segment_step self d md st u) as [st1|e] eqn:E; [|discriminate].
    apply segment_step_keeps in E as [Hu Hmono]. intros [Hus Hmono']%IH.
    split; [|auto]. constructor; [|exact Hus].
    eapply segment_kept_mono; eauto.
Qed.

(** X3: no text is lost: when a document is chunked, every segment
    occurs in some chunk, or else every sentence of that segment does. *)
Theorem chunks_cover_document self document_id content metadata cs :
  chunk_document self document_id content metadata = Ok cs ->
  should_chunk self content = true ->
  Forall (fun segment =>
            (exists c, c ∈ cs /\ occurs_in segment (Chunker.content c))
            \/ Forall (fun sentence =>
                         exists c, c ∈ cs /\ occurs_in sentence (Chunker.content c))
                 (_split_into_sentences segment))
    (_split_into_segments content).
Proof.
  unfold chunk_document. intros H Hsc. rewrite Hsc in H. simpl in H.
  destruct (for_each _ _ _) as [st|e] eqn:E; [|discriminate]. simpl in H.
  apply segments_loop_keeps in E as [Hkept _].
  assert (Hfinal : forall u, kept st u ->
                             exists c, c ∈ cs /\ occurs_in u (Chunker.content c)).
  { intros u [(c & Hc & Hu)|Hu].
    - exists c. split; [|exact Hu].
      destruct (current_chunk_content st); injection H as <-; set_solver.
    - destruct (current_chunk_content st) as [|x l] eqn:Ecur;
        [now apply elem_of_nil in Hu|].
      injection H as <-. eexists. split; [apply elem_of_app; right; left|].
      exact (occurs_in_join blank_line (x :: l) u Hu). }
  eapply Forall_impl; [exact Hkept|].
  intros segment [Hk|Hk]; [left; auto | right].
  eapply Forall_impl; [exact Hk | auto].
Qed.

End CoverageFacts.

Section InitFacts.
Import Chunker.

Lemma binary_round_aux_sign prec emax s m e l :
  match binary_round_aux prec emax s m e l with
  | S754_finite s' _ _ | S754_infinity s' => s' = s
  | _ => True
  end.
Proof.
  unfold binary_round_aux.
  destruct (shr_fexp prec emax m e l) as [mrs e'].
  destruct (shr_fexp prec emax _ e' loc_Exact) as [mrs' e''].
  destruct (shr_m mrs'); [exact I | | exact I].
  now destruct (e'' <=? emax - prec).
Qed.

Lemma of_int_sign z :
  0 <= z ->
  match PyFloat.of_int z with
  | S754_finite s _ _ | S754_infinity s => s = false
  | _ => True
  end.
Proof.
  intros Hz. unfold PyFloat.of_int, binary_normalize.
  destruct z as [|p|p]; [exact I | | lia].
  unfold binary_round. destruct (shl_align _ _ _) as [mz ez].
  apply binary_round_aux_sign.
Qed.

Lemma mul_sign x y :
  match x with
  | S754_finite s _ _ | S754_infinity s => s = false
  | _ => True
  end ->
  float_ge_zero y = true ->
  match PyFloat.mul x y with
  | S754_finite s _ _ => s = false
  | _ => True
  end.
Proof.
  unfold PyFloat.mul, SFmul.
  destruct x as [sx|sx| |sx mx ex], y as [sy|sy| |sy my ey]; simpl; try exact (fun _ _ => I);
    try discriminate.
  intros -> ->%negb_true_iff. simpl.
  pose proof (binary_round_aux_sign PyFloat.prec PyFloat.emax false
                (Z.pos (mx * my)) (ex + ey) loc_Exact) as Hs.
  now destruct (binary_round_aux _ _ _ _ _ _).
Qed.

Lemma to_int_sign s m e : s = false -> 0 <= PyFloat.to_int (S754_finite s m e).
Proof.
  intros ->. simpl. destruct (0 <=? e) eqn:E.
  - apply Z.mul_nonneg_nonneg; [lia | apply Z.pow_nonneg; lia].
  - apply Z.leb_gt in E. apply Z.div_pos; [lia|]. apply Z.pow_pos_nonneg; lia.
Qed.

(** X8: a chunker made from a [chunk_size] and an [overlap_percent] that
    are not negative has an [overlap_size] that is not negative, and the
    [chunk_size] and [min_chunk_size] it was given. *)
Theorem init_overlap_not_negative chunk_size overlap_percent min_chunk_size self :
  init chunk_size overlap_percent min_chunk_size = Ok self ->
  0 <= chunk_size ->
  float_ge_zero overlap_percent = true ->
  0 <= overlap_size self
  /\ Chunker.chunk_size self = chunk_size
  /\ Chunker.min_chunk_size self = min_chunk_size.
Proof.
  unfold init, PyFloat.of_int_checked. intros Hinit Hcs Hp.
  destruct (_ <=? Z.abs chunk_size); [discriminate|]. simpl in Hinit.
  pose proof (mul_sign _ _ (of_int_sign chunk_size Hcs) Hp) as Hs.
  destruct (PyFloat.mul _ _) as [s|s| |s m e]; try discriminate;
    simpl in Hinit; injection Hinit as <-; simpl; repeat split.
  - reflexivity.
  - now apply to_int_sign.
Qed.

End InitFacts.

(** ** The database and the migration *)

Section MoreDatabaseFacts.
Context `{PyLib}.
Import Database.

Lemma bind_params_lookup params kwargs args name v :
  bind_params params kwargs = Ok args ->
  assoc name kwargs = Some v ->
  (exists dflt, In (name, dflt) params) ->
  assoc name args = Some v.
Proof.
  revert args. induction params as [|[n dflt] params IH]; intros args Hb Hk [x Hin].
  { destruct Hin. }
  simpl in Hb.
  destruct (match assoc n kwargs with Some _ => _ | None => _ end) as [v0|e] eqn:Ev;
    [|discriminate].
  simpl in Hb. destruct (bind_params params kwargs) as [rest|e]; [|discriminate].
  simpl in Hb. injection Hb as <-. simpl.
  destruct (String.eqb_spec name n) as [->|Hne].
  - rewrite Hk in Ev. now injection Ev as <-.
  - destruct Hin as [[= -> _]|Hin]; [contradiction|]. apply IH; eauto.
Qed.

(** A parameter without a default must be passed. *)
Lemma bind_params_required params kwargs args name :
  bind_params params kwargs = Ok args ->
  In (name, None) params ->
  is_Some (assoc name kwargs).
Proof.
  revert args. induction params as [|[n dflt] params IH]; intros args Hb Hin.
  { destruct Hin. }
  simpl in Hb.
  destruct (match assoc n kwargs with Some _ => _ | None => _ end) as [v0|e] eqn:Ev;
    [|discriminate].
  simpl in Hb. destruct (bind_params params kwargs) as [rest|e]; [|discriminate].
  destruct Hin as [[= -> ->]|Hin]; [|eapply IH; eauto].
  destruct (assoc name kwargs); [eauto | discriminate].
Qed.

(** X10: a call of [insert_document] that returns has stored the
    [source_type] and the [content] it was given under [doc_id], and has
    changed no other document and no legacy table. *)
Theorem insert_document_stores pkg doc_id kwargs d d' :
  insert_document pkg doc_id kwargs d = Ok d' ->
  tweets d' = tweets d /\ thoughts d' = thoughts d
  /\ (forall other, other <> doc_id -> documents d' !! other = documents d !! other)
  /\ exists values source_type content,
       documents d' !! doc_id = Some values
       /\ assoc "source_type" kwargs = Some source_type
       /\ assoc "source_type" values = Some source_type
       /\ assoc "content" kwargs = Some content
       /\ assoc "content" values = Some content.
Proof.
  unfold insert_document, bind_call.
  destruct (unexpected_keyword _ _); [discriminate|].
  destruct (bind_params _ kwargs) as [args|e] eqn:Eb; [|discriminate]. simpl.
  assert (Hst : is_Some (assoc "source_type" kwargs)).
  { eapply bind_params_required; [exact Eb|]. destruct pkg; simpl; auto. }
  assert (Hct : is_Some (assoc "content" kwargs)).
  { eapply bind_params_required; [exact Eb|]. destruct pkg; simpl; auto. }
  destruct Hst as [source_type Hst], Hct as [content Hct].
  assert (Hst' : assoc "source_type" args = Some source_type).
  { eapply bind_params_lookup; [exact Eb|exact Hst|]. destruct pkg; simpl; eauto. }
  assert (Hct' : assoc "content" args = Some content).
  { eapply bind_params_lookup; [exact Eb|exact Hct|]. destruct pkg; simpl; eauto. }
  unfold insert_values.
  destruct (dumps_or_none (arg args "metadata")) as [md|e]; [|discriminate]. simpl.
  destruct (dumps_or_none (arg args "tags")) as [tg|e]; [|discriminate]. simpl.
  unfold execute_insert.
  destruct (negb _); [discriminate|].
  destruct (existsb _ _); [discriminate|].
  intros [= <-]. simpl. repeat split.
  - intros other Hne. now rewrite lookup_insert_ne.
  - eexists _, source_type, content. rewrite lookup_insert_eq.
    split; [reflexivity|]. unfold arg. rewrite Hst', Hct'.
    destruct pkg; simpl; auto.
Qed.

End MoreDatabaseFacts.

Section MoreMigrationFacts.
Context `{PyLib}.
Variable gen : pyval -> pyval -> pyval -> result string.
Import Database Migrate.

Section MoreLoopFacts.
Variable pkg : package.
Variable key : string.
Variable identity : Row -> pyval -> result (pyval * string).
Variable document : Row -> pyval -> pyval -> result (list (string * pyval)).

#[local] Abbreviation has_key := (Migrate.has_key key).
#[local] Abbreviation dry_outcome := (Migrate.dry_outcome pkg key identity document).
#[local] Abbreviation count_rows := (Migrate.count_rows pkg key identity document).

(** One record of a run that writes, next to the same record of a dry run
    on a database [d0] with fewer documents. *)
Lemma real_step st row kv d0 :
  row_get row key = Ok kv ->
  documents d0 ⊆ documents (db st) ->
  let st1 := after_record st kv
               (try_body pkg identity document false row kv (db st)) in
  tweets (db st1) = tweets (db st)
  /\ thoughts (db st1) = thoughts (db st)
  /\ documents (db st) ⊆ documents (db st1)
  /\ Z.of_nat (size (documents (db st1)))
     = Z.of_nat (size (documents (db st))) + (n_migrated st1 - n_migrated st)
  /\ n_migrated st1 <= n_migrated st + (if is_migrated (dry_outcome d0 row) then 1 else 0)
  /\ n_skipped st + (if is_skipped (dry_outcome d0 row) then 1 else 0) <= n_skipped st1.
Proof.
  intros Hk Hsub. unfold Migrate.dry_outcome. rewrite Hk. unfold try_body.
  destruct (identity row kv) as [[parsed doc_id]|e]; simpl;
    [|repeat split; (reflexivity || lia)].
  destruct (probe (db st) doc_id) eqn:Ep; simpl.
  { destruct (probe d0 doc_id); simpl;
      [|destruct (document row kv parsed); simpl]; repeat split; (reflexivity || lia). }
  assert (Hnone : documents (db st) !! doc_id = None).
  { apply not_elem_of_dom. intros Hin%probe_dom. congruence. }
  assert (probe d0 doc_id = false) as ->.
  { destruct (probe d0 doc_id) eqn:Ep0; [|reflexivity].
    apply probe_dom, elem_of_dom in Ep0 as [v Hv].
    eapply lookup_weaken in Hv; [|exact Hsub]. congruence. }
  destruct (document row kv parsed) as [kwargs|e]; simpl;
    [|repeat split; (reflexivity || lia)].
  destruct (insert_document_cases pkg doc_id kwargs) as [[e He]|[values Hv]].
  - rewrite He. simpl. repeat split; (reflexivity || lia).
  - rewrite Hv. simpl. repeat split; try lia.
    + now apply insert_subseteq.
    + rewrite map_size_insert_None by exact Hnone. lia.
Qed.

Lemma real_run rows d0 : forall st,
  Forall has_key rows ->
  documents d0 ⊆ documents (db st) ->
  exists st',
    for_each (record_step pkg key identity document false) st rows = Ok st'
    /\ tweets (db st') = tweets (db st)
    /\ thoughts (db st') = thoughts (db st)
    /\ documents (db st) ⊆ documents (db st')
    /\ Z.of_nat (size (documents (db st')))
       = Z.of_nat (size (documents (db st))) + (n_migrated st' - n_migrated st)
    /\ n_migrated st' <= n_migrated st + count_rows is_migrated d0 rows
    /\ n_skipped st + count_rows is_skipped d0 rows <= n_skipped st'.
Proof.
  induction rows as [|row rows IH]; intros st Hall Hsub.
  - exists st. unfold Migrate.count_rows. simpl. repeat split; (reflexivity || lia).
  - inversion_clear Hall as [|? ? [kv Hk] Hrows]. simpl.
    rewrite (record_step_after pkg key identity document false st row kv Hk).
    pose proof (real_step st row kv d0 Hk Hsub) as (Ht & Hth & Hdoc & Hsize & Hm & Hs).
    simpl in Ht, Hth, Hdoc, Hsize, Hm, Hs.
    destruct (IH (after_record st kv
                    (try_body pkg identity document false row kv (db st))) Hrows)
      as (st' & -> & Ht' & Hth' & Hdoc' & Hsize' & Hm' & Hs').
    { etransitivity; eassumption. }
    exists st'. split; [reflexivity|].
    rewrite !count_rows_cons.
    repeat split; [congruence | congruence | etransitivity; eassumption | lia | lia | lia].
Qed.

Lemma migrate_rows_real rows d d0 :
  Forall has_key rows ->
  documents d0 ⊆ documents d ->
  exists s d',
    migrate_rows pkg key identity document false rows d = Ok (s, d')
    /\ tweets d' = tweets d /\ thoughts d' = thoughts d
    /\ documents d ⊆ documents d'
    /\ Z.of_nat (size (documents d')) = Z.of_nat (size (documents d)) + migrated s
    /\ migrated s <= count_rows is_migrated d0 rows
    /\ count_rows is_skipped d0 rows <= skipped s.
Proof.
  intros Hall Hsub. unfold migrate_rows.
  destruct (real_run rows d0 {| n_migrated := 0; n_skipped := 0; n_errors := 0;
                                key_local := None; db := d |} Hall Hsub)
    as (st' & -> & Ht & Hth & Hdoc & Hsize & Hm & Hs).
  simpl in *. eexists _, _. split; [reflexivity|]. simpl.
  repeat split; (assumption || lia).
Qed.

(** With the [Database] of [proof_of_monk] a document that carries an
    [author] is never inserted, so no record is ever migrated. *)
Lemma authored_settled D row :
  (forall kv parsed kwargs, document row kv parsed = Ok kwargs ->
                            is_Some (assoc "author" kwargs)) ->
  pkg = proof_of_monk ->
  Migrate.settled pkg key identity document D row.
Proof.
  intros Hdoc -> kv d _ _. unfold try_body.
  destruct (identity row kv) as [[parsed doc_id]|e]; simpl; [|exact I].
  destruct (probe d doc_id); [exact I|].
  destruct (document row kv parsed) as [kwargs|e] eqn:E; simpl; [|exact I].
  now rewrite (insert_document_unexpected_keyword doc_id kwargs d (Hdoc _ _ _ E)).
Qed.

End MoreLoopFacts.

Ltac bind_head t :=
  match t with
  | mbind _ ?m => bind_head m
  | _ => t
  end.

(** Case analysis on the first call of a chain of binds in [H]. *)
Ltac bind_step H :=
  match type of H with
  | ?lhs = _ =>
      let h := bind_head lhs in
      destruct h; simpl in H; [|discriminate]
  end.

Ltac bind_steps H :=
  repeat match type of H with
         | context [row_get ?r ?k] =>
             destruct (row_get r k); simpl in H; [|discriminate]
         end.

Lemma tweet_document_author row kv parsed kwargs :
  tweet_document row kv parsed = Ok kwargs -> is_Some (assoc "author" kwargs).
Proof.
  unfold tweet_document. intros Hd. bind_steps Hd.
  bind_step Hd. bind_step Hd.
  injection Hd as <-. simpl. eauto.
Qed.

Lemma thought_document_author row kv parsed kwargs :
  thought_document row kv parsed = Ok kwargs -> is_Some (assoc "author" kwargs).
Proof.
  unfold thought_document. intros Hd. bind_steps Hd.
  bind_step Hd.
  injection Hd as <-. simpl. eauto.
Qed.

Lemma select_tweets_same d d' : tweets d' = tweets d -> select_tweets d' = select_tweets d.
Proof. unfold select_tweets. now intros ->. Qed.

Lemma select_thoughts_same d d' :
  thoughts d' = thoughts d -> select_thoughts d' = select_thoughts d.
Proof. unfold select_thoughts. now intros ->. Qed.

(** X11: with the [Database] class that [migrate.py] imports, whose
    [insert_document] has no [author] parameter, a migration that is not
    a dry run migrates nothing and leaves the database as it is: every
    record is counted as skipped or as an error. *)
Theorem proof_of_monk_migrates_nothing d :
  exists r,
    run_full_migration gen proof_of_monk false d = Ok (r, d)
    /\ total_migrated r = 0
    /\ skipped (res_tweets r) + errors (res_tweets r) = Z.of_nat (length (tweets d))
    /\ skipped (res_thoughts r) + errors (res_thoughts r) = Z.of_nat (length (thoughts d)).
Proof.
  destruct (migrate_tweets_returns gen proof_of_monk false d) as (s1 & d1 & Hrun1 & Hsum1 & Htot1).
  destruct (migrate_thoughts_returns gen proof_of_monk false d) as (s2 & d2 & Hrun2 & Hsum2 & Htot2).
  destruct (migrate_rows_settled proof_of_monk "tweet_id" (tweet_identity gen)
              tweet_document (select_tweets d) d) as (s1' & Hset1 & Hm1 & _).
  { apply select_tweets_has_key. }
  { apply Forall_forall. intros row _. apply authored_settled; [|reflexivity].
    apply tweet_document_author. }
  destruct (migrate_rows_settled proof_of_monk "id" (thought_identity gen)
              thought_document (select_thoughts d) d) as (s2' & Hset2 & Hm2 & _).
  { apply select_thoughts_has_key. }
  { apply Forall_forall. intros row _. apply authored_settled; [|reflexivity].
    apply thought_document_author. }
  unfold migrate_tweets_to_documents in Hrun1. rewrite Hset1 in Hrun1.
  injection Hrun1 as -> <-.
  unfold migrate_thoughts_to_documents in Hrun2. rewrite Hset2 in Hrun2.
  injection Hrun2 as -> <-.
  unfold run_full_migration, migrate_tweets_to_documents. rewrite Hset1. simpl.
  unfold migrate_thoughts_to_documents. rewrite Hset2. simpl.
  eexists. split; [reflexivity|]. simpl. repeat split; lia.
Qed.


(** X13: a migration that is not a dry run adds exactly
    [total_migrated] documents. *)
Theorem documents_grow_by_migrated pkg d :
  exists r d',
    run_full_migration gen pkg false d = Ok (r, d')
    /\ Z.of_nat (size (documents d')) = Z.of_nat (size (documents d)) + total_migrated r.
Proof.
  unfold run_full_migration, migrate_tweets_to_documents, migrate_thoughts_to_documents.
  destruct (migrate_rows_real pkg "tweet_id" (tweet_identity gen) tweet_document
              (select_tweets d) d d (select_tweets_has_key d) (reflexivity _))
    as (s1 & d1 & -> & _ & _ & _ & Hsize1 & _). simpl.
  destruct (migrate_rows_real pkg "id" (thought_identity gen) thought_document
              (select_thoughts d1) d1 d1 (select_thoughts_has_key d1) (reflexivity _))
    as (s2 & d2 & -> & _ & _ & _ & Hsize2 & _). simpl.
  eexists _, d2. split; [reflexivity|]. simpl. lia.
Qed.

(** X14: a dry run never promises too little: the run that writes
    migrates at most the records that the dry run counts as migrated, and
    skips at least those that the dry run counts as skipped. *)
Theorem dry_run_bounds_migration pkg d :
  exists r_dry r d',
    run_full_migration gen pkg true d = Ok (r_dry, d)
    /\ run_full_migration gen pkg false d = Ok (r, d')
    /\ migrated (res_tweets r) <= migrated (res_tweets r_dry)
    /\ migrated (res_thoughts r) <= migrated (res_thoughts r_dry)
    /\ skipped (res_tweets r_dry) <= skipped (res_tweets r)
    /\ skipped (res_thoughts r_dry) <= skipped (res_thoughts r)
    /\ total_migrated r <= total_migrated r_dry.
Proof.
  unfold run_full_migration, migrate_tweets_to_documents, migrate_thoughts_to_documents.
  rewrite (migrate_rows_dry pkg "tweet_id") by apply select_tweets_has_key. simpl.
  rewrite (migrate_rows_dry pkg "id") by apply select_thoughts_has_key. simpl.
  destruct (migrate_rows_real pkg "tweet_id" (tweet_identity gen) tweet_document
              (select_tweets d) d d (select_tweets_has_key d) (reflexivity _))
    as (s1 & d1 & -> & _ & Hth1 & Hdoc1 & _ & Hm1 & Hs1). simpl.
  destruct (migrate_rows_real pkg "id" (thought_identity gen) thought_document
              (select_thoughts d1) d1 d (select_thoughts_has_key d1) Hdoc1)
    as (s2 & d2 & -> & _ & _ & _ & _ & Hm2 & Hs2). simpl.
  rewrite (select_thoughts_same _ _ Hth1) in Hm2, Hs2.
  eexists _, _, d2. split; [reflexivity|]. split; [reflexivity|]. simpl.
  repeat split; (assumption || lia).
Qed.

(** X15: what a migrated tweet becomes: a new document of source type
    twitter, whose author is the tweet's [user_id], whose content is its
    [full_text], whose path is [twitter://<user_id>/<tweet_id>], and whose
    content type is retweet for a retweet, reply for another reply, and
    tweet otherwise. *)
Theorem migrated_tweet_document row tweet_id d d' user_id full_text is_retweet is_reply :
  row_get row "user_id" = Ok user_id ->
  row_get row "full_text" = Ok full_text ->
  row_get row "is_retweet" = Ok is_retweet ->
  row_get row "is_reply" = Ok is_reply ->
  try_body proof_of_self (tweet_identity gen) tweet_document false row tweet_id d
  = Ok (Migrated, d') ->
  exists doc_id values,
    documents d !! doc_id = None
    /\ documents d' = <[doc_id := values]> (documents d)
    /\ assoc "source_type" values = Some (PStr "twitter")
    /\ assoc "content_type" values
       = Some (PStr (if truthy is_retweet then "retweet"
                     else if truthy is_reply then "reply" else "tweet"))
    /\ assoc "author" values = Some user_id
    /\ assoc "content" values = Some full_text
    /\ assoc "source_path" values
       = Some (PStr ("twitter://" +:+ format user_id +:+ "/" +:+ format tweet_id))
    /\ assoc "is_chunked" values = Some (PBool false).
Proof.
  intros Hu Hf Hrt Hrp. unfold try_body, tweet_identity, tweet_document.
  rewrite Hu, Hf, Hrt, Hrp. simpl. intros Hb.
  bind_steps Hb.
  bind_step Hb.
  match type of Hb with
  | context [gen ?a ?b ?c] => destruct (gen a b c) as [doc_id|]; simpl in Hb; [|discriminate]
  end.
  destruct (probe d doc_id) eqn:Ep; [discriminate|].
  bind_step Hb. bind_step Hb.
  unfold insert_document, bind_call in Hb. simpl in Hb.
  unfold insert_values, dumps_or_none, arg in Hb. simpl in Hb.
  bind_step Hb. bind_step Hb.
  unfold execute_insert in Hb.
  destruct (negb _); [discriminate|].
  destruct (existsb _ _); [discriminate|].
  simpl in Hb. injection Hb as <-. simpl.
  exists doc_id. eexists. split.
  { apply not_elem_of_dom. intros Hin%probe_dom. congruence. }
  split; [reflexivity|]. simpl. repeat split.
Qed.

(** X16: what a migrated thought becomes: a new document of source type
    user and content type note, without author, whose content is the
    thought's and whose path is [thought://<id>]. *)
Theorem migrated_thought_document row thought_id d d' content :
  row_get row "content" = Ok content ->
  try_body proof_of_self (thought_identity gen) thought_document false row thought_id d
  = Ok (Migrated, d') ->
  exists doc_id values,
    documents d !! doc_id = None
    /\ documents d' = <[doc_id := values]> (documents d)
    /\ assoc "source_type" values = Some (PStr "user")
    /\ assoc "content_type" values = Some (PStr "note")
    /\ assoc "author" values = Some PNone
    /\ assoc "content" values = Some content
    /\ assoc "source_path" values = Some (PStr ("thought://" +:+ format thought_id))
    /\ assoc "is_chunked" values = Some (PBool false).
Proof.
  intros Hc. unfold try_body, thought_identity, thought_document.
  rewrite Hc. simpl. intros Hb.
  bind_steps Hb.
  bind_step Hb.
  match type of Hb with
  | context [gen ?a ?b ?c] => destruct (gen a b c) as [doc_id|]; simpl in Hb; [|discriminate]
  end.
  destruct (probe d doc_id) eqn:Ep; [discriminate|].
  bind_step Hb.
  unfold insert_document, bind_call in Hb. simpl in Hb.
  unfold insert_values, dumps_or_none, arg in Hb. simpl in Hb.
  bind_step Hb. bind_step Hb.
  unfold execute_insert in Hb.
  destruct (negb _); [discriminate|].
  destruct (existsb _ _); [discriminate|].
  simpl in Hb. injection Hb as <-. simpl.
  exists doc_id. eexists. split.
  { apply not_elem_of_dom. intros Hin%probe_dom. congruence. }
  split; [reflexivity|]. simpl. repeat split.
Qed.

End MoreMigrationFacts.

(** ** The indexer *)

Section MoreIndexerFacts.
Context `{PyLib}.
Import Database Indexer.

(** Whether [_index_document] raises does not depend on the tables, and
    when it returns it has written one row, under an id that the record
    determines. *)
Lemma index_document_cases record :
  (exists e, forall d, _index_document record d = Raise e)
  \/ (exists doc_id values, forall d,
        _index_document record d
        = Ok {| tweets := tweets d; thoughts := thoughts d;
                documents := <[doc_id := values]> (documents d) |}).
Proof.
  unfold _index_document.
  destruct (record !! "content") as [content|]; simpl; [|left; eauto].
  destruct (if truthy _ then _ else _) as [created|e]; simpl; [|left; eauto].
  destruct (generate_document_id_dyn _ _ _) as [doc_id|e]; simpl; [|left; eauto].
  match goal with |- context [insert_document ?p ?i ?k _] =>
    destruct (insert_document_cases p i k) as [[e He]|[values Hv]]
  end; [left; eauto | right; eauto].
Qed.

(** One record: the counters and the tables before and after. *)
Lemma record_step_cases st record :
  let st' := record_step st record in
  (cnt st' = {| n_documents := n_documents (cnt st);
                n_errors := n_errors (cnt st) + 1 |}
   /\ db st' = db st)
  \/ (cnt st' = {| n_documents := n_documents (cnt st) + 1;
                   n_errors := n_errors (cnt st) |}
      /\ exists doc_id values,
           db st' = {| tweets := tweets (db st); thoughts := thoughts (db st);
                       documents := <[doc_id := values]> (documents (db st)) |}).
Proof.
  unfold record_step.
  destruct (py_eq_str _ "document"); [|simpl; auto].
  destruct (index_document_cases record) as [[e He]|(doc_id & values & Hv)].
  - rewrite He. simpl. auto.
  - rewrite Hv. simpl. right. split; [reflexivity|]. eauto.
Qed.

Lemma records_loop_tables records : forall st,
  let st' := fold_left record_step records st in
  tweets (db st') = tweets (db st)
  /\ thoughts (db st') = thoughts (db st)
  /\ dom (documents (db st)) ⊆ dom (documents (db st'))
  /\ n_documents (cnt st) <= n_documents (cnt st')
  /\ Z.of_nat (size (documents (db st')))
     <= Z.of_nat (size (documents (db st)))
        + (n_documents (cnt st') - n_documents (cnt st)).
Proof.
  induction records as [|r records IH]; intros st; simpl.
  { repeat split; (reflexivity || lia). }
  destruct (IH (record_step st r)) as (Ht & Hth & Hdom & Hn & Hsize).
  destruct (record_step_cases st r) as [[Hc Hd]|[Hc (doc_id & values & Hd)]];
    cbv zeta in Hc, Hd; rewrite Hd in Ht, Hth, Hdom, Hsize; rewrite Hc in Hn, Hsize;
    simpl in *.
  - repeat split; (assumption || lia).
  - repeat split; try assumption; try lia.
    + etransitivity; [|exact Hdom]. rewrite dom_insert_L. set_solver.
    + destruct (documents (db st) !! doc_id) eqn:E;
        [rewrite map_size_insert_Some in Hsize by eauto
        |rewrite map_size_insert_None in Hsize by exact E]; lia.
Qed.

(** X18: indexing leaves the legacy tables alone, removes no document
    and adds at most as many as it reports. *)
Theorem indexing_only_adds adapter d :
  let run := index_from_adapter adapter d in
  tweets (final_db run) = tweets d
  /\ thoughts (final_db run) = thoughts d
  /\ dom (documents d) ⊆ dom (documents (final_db run))
  /\ Z.of_nat (size (documents (final_db run)))
     <= Z.of_nat (size (documents d))
        + match returned run with Ok c => n_documents c | Raise _ => 0 end.
Proof.
  unfold index_from_adapter. destruct (validate_source adapter); simpl.
  2:{ repeat split; [set_solver | lia]. }
  destruct (records_loop_tables (parse adapter)
              {| cnt := {| n_documents := 0; n_errors := 0 |};
                 db := d; consumed := 0 |}) as (Ht & Hth & Hdom & Hn & Hsize).
  simpl in *. repeat split; try assumption. lia.
Qed.

(** Two runs over the same records, the second on a database that has
    the documents of the first. *)
Lemma records_loop_again records : forall st1 st2,
  cnt st1 = cnt st2 ->
  dom (documents (db st1)) ⊆ dom (documents (db st2)) ->
  let st1' := fold_left record_step records st1 in
  let st2' := fold_left record_step records st2 in
  cnt st1' = cnt st2'
  /\ dom (documents (db st2')) = dom (documents (db st2)) ∪ dom (documents (db st1')).
Proof.
  induction records as [|r records IH]; intros st1 st2 Hcnt Hdom; simpl.
  { split; [exact Hcnt | set_solver]. }
  pose proof (records_loop_tables records (record_step st1 r)) as (_ & _ & Hmono & _).
  simpl in Hmono.
  assert (Hstep : cnt (record_step st1 r) = cnt (record_step st2 r)
                  /\ dom (documents (db (record_step st1 r)))
                     ⊆ dom (documents (db (record_step st2 r)))
                  /\ dom (documents (db (record_step st2 r)))
                     ⊆ dom (documents (db st2)) ∪ dom (documents (db (record_step st1 r)))
                  /\ dom (documents (db st2)) ⊆ dom (documents (db (record_step st2 r)))).
  { unfold record_step. rewrite Hcnt.
    destruct (py_eq_str _ "document"); [|simpl; repeat split; set_solver].
    destruct (index_document_cases r) as [[e He]|(doc_id & values & Hv)].
    - rewrite !He. simpl. repeat split; set_solver.
    - rewrite !Hv. simpl. rewrite !dom_insert_L. repeat split; set_solver. }
  destruct Hstep as (Hc & Hd1 & Hd2 & Hd3).
  destruct (IH _ _ Hc Hd1) as [Hcnt' Hdom']. split; [exact Hcnt'|].
  rewrite Hdom'. set_solver.
Qed.

(** X19: indexing the same records a second time returns the same
    counts and adds no document id. *)
Theorem reindexing_adds_nothing adapter d :
  let first := index_from_adapter adapter d in
  let second := index_from_adapter adapter (final_db first) in
  returned second = returned first
  /\ dom (documents (final_db second)) = dom (documents (final_db first)).
Proof.
  unfold index_from_adapter. destruct (validate_source adapter); simpl; [|auto].
  destruct (records_loop_again (parse adapter)
              {| cnt := {| n_documents := 0; n_errors := 0 |}; db := d; consumed := 0 |}
              {| cnt := {| n_documents := 0; n_errors := 0 |};
                 db := db (fold_left record_step (parse adapter)
                             {| cnt := {| n_documents := 0; n_errors := 0 |};
                                db := d; consumed := 0 |});
                 consumed := 0 |}) as [Hcnt Hdom]; [reflexivity| |].
  { simpl. pose proof (records_loop_tables (parse adapter)
              {| cnt := {| n_documents := 0; n_errors := 0 |};
                 db := d; consumed := 0 |}) as (_ & _ & Hmono & _). exact Hmono. }
  simpl in *. split; [now rewrite Hcnt | rewrite Hdom; set_solver].
Qed.

End MoreIndexerFacts.

Section IndexerErrorFacts.
Context `{PyLib}.
Import Database Indexer.

Lemma py_eq_str_true v s : py_eq_str v s = true -> v = PStr s.
Proof.
  destruct v; simpl; try discriminate. now intros ->%String.eqb_eq.
Qed.

(** A record that is not of type document, or has no content, is an
    error and writes nothing. *)
Lemma record_step_error st record :
  record !! "type" <> Some (PStr "document") \/ record !! "content" = None ->
  record_step st record
  = {| cnt := {| n_documents := n_documents (cnt st);
                 n_errors := n_errors (cnt st) + 1 |};
       db := db st; consumed := S (consumed st) |}.
Proof.
  intros Hr. unfold record_step.
  destruct (py_eq_str _ "document") eqn:E; [|reflexivity].
  apply py_eq_str_true in E.
  destruct Hr as [Hty|Hc].
  - destruct (record !! "type") as [v|]; simpl in E; [|discriminate]. congruence.
  - unfold _index_document. now rewrite Hc.
Qed.

Lemma error_records_loop records : forall st,
  Forall (fun r => r !! "type" <> Some (PStr "document") \/ r !! "content" = None)
    records ->
  fold_left record_step records st
  = {| cnt := {| n_documents := n_documents (cnt st);
                 n_errors := n_errors (cnt st) + Z.of_nat (length records) |};
       db := db st; consumed := (consumed st + length records)%nat |}.
Proof.
  induction records as [|r records IH]; intros st Hall.
  - simpl. destruct st as [[nd ne] d c]. simpl. f_equal; [f_equal; lia | lia].
  - inversion_clear Hall as [|? ? Hr Hrs]. simpl fold_left.
    rewrite (record_step_error st r Hr), IH by exact Hrs. simpl.
    f_equal; [f_equal; lia | lia].
Qed.

(** X20: records that are not documents, or that have no [content],
    are all counted as errors, and nothing is written. *)
Theorem unusable_records_are_errors adapter d :
  validate_source adapter = true ->
  Forall (fun r => r !! "type" <> Some (PStr "document") \/ r !! "content" = None)
    (parse adapter) ->
  index_from_adapter adapter d
  = {| returned := Ok {| n_documents := 0;
                         n_errors := Z.of_nat (length (parse adapter)) |};
       final_db := d;
       records_consumed := length (parse adapter) |}.
Proof.
  intros Hv Hall. unfold index_from_adapter. rewrite Hv. simpl.
  now rewrite (error_records_loop _ _ Hall).
Qed.

End IndexerErrorFacts.

(** ** The further properties on examples *)

Section MoreRuns.
Import Database Migrate Indexer Examples RefLib.

Lemma unusable_records_are_errors_witness :
  index_from_adapter unusable_adapter (legacy [] [])
  = {| returned := Ok {| n_documents := 0; n_errors := 2 |};
       final_db := legacy [] [];
       records_consumed := 2 |}.
Proof.
  apply (unusable_records_are_errors unusable_adapter (legacy [] [])); [reflexivity|].
  unfold unusable_adapter. simpl parse.
  constructor; [left; intros Heq; vm_compute in Heq; discriminate|].
  constructor; [right; vm_compute; reflexivity | constructor].
Defined.

Lemma insert_document_stores_witness :
  exists d' values,
    insert_document proof_of_self "id-1"
      [("source_type", PStr "file"); ("content", PStr "hello")] (legacy [] []) = Ok d'
    /\ documents d' !! "id-1" = Some values
    /\ assoc "content" values = Some (PStr "hello").
Proof.
  destruct (insert_document proof_of_self "id-1"
              [("source_type", PStr "file"); ("content", PStr "hello")] (legacy [] []))
    as [d'|e] eqn:E; [|vm_compute in E; discriminate].
  destruct (insert_document_stores _ _ _ _ _ E)
    as (_ & _ & _ & values & st & ct & Hl & _ & _ & Hk & Hv).
  exists d', values. split; [reflexivity|]. split; [exact Hl|].
  rewrite Hv, <- Hk. reflexivity.
Defined.

Lemma migrated_tweet_document_witness :
  exists d' doc_id values,
    try_body proof_of_self (tweet_identity generate_document_id_dyn) tweet_document
      false hello_row (PStr "1") (legacy [tweet_hello] []) = Ok (Migrated, d')
    /\ documents d' = <[doc_id := values]> ∅
    /\ assoc "content_type" values = Some (PStr "tweet")
    /\ assoc "author" values = Some (PStr "alice")
    /\ assoc "content" values = Some (PStr "hello").
Proof.
  destruct (try_body proof_of_self (tweet_identity generate_document_id_dyn)
              tweet_document false hello_row (PStr "1") (legacy [tweet_hello] []))
    as [[o d']|e] eqn:E; [|vm_compute in E; discriminate].
  assert (Ho : o = Migrated) by (vm_compute in E; now injection E).
  subst o.
  destruct (migrated_tweet_document generate_document_id_dyn hello_row (PStr "1")
              (legacy [tweet_hello] []) d' (PStr "alice") (PStr "hello") (PInt 0) (PInt 0)
              eq_refl eq_refl eq_refl eq_refl E)
    as (doc_id & values & _ & Hd & _ & Hty & Ha & Hc & _).
  exists d', doc_id, values. split; [reflexivity|]. auto.
Defined.

Lemma migrated_thought_document_witness :
  exists d' doc_id values,
    try_body proof_of_self (thought_identity generate_document_id_dyn) thought_document
      false note_row (PInt 2) (legacy [] [thought_note]) = Ok (Migrated, d')
    /\ documents d' = <[doc_id := values]> ∅
    /\ assoc "source_type" values = Some (PStr "user")
    /\ assoc "content" values = Some (PStr "another note").
Proof.
  destruct (try_body proof_of_self (thought_identity generate_document_id_dyn)
              thought_document false note_row (PInt 2) (legacy [] [thought_note]))
    as [[o d']|e] eqn:E; [|vm_compute in E; discriminate].
  assert (Ho : o = Migrated) by (vm_compute in E; now injection E).
  subst o.
  destruct (migrated_thought_document generate_document_id_dyn note_row (PInt 2)
              (legacy [] [thought_note]) d' (PStr "another note") eq_refl E)
    as (doc_id & values & _ & Hd & Hst & _ & _ & Hc & _).
  exists d', doc_id, values. split; [reflexivity|]. auto.
Defined.

Lemma valid_source_counts_witness :
  exists c,
    returned (index_from_adapter hello_adapter (legacy [] [])) = Ok c
    /\ n_documents c + n_errors c = 1
    /\ records_consumed (index_from_adapter hello_adapter (legacy [] [])) = 1%nat.
Proof. apply (valid_source_counts hello_adapter (legacy [] [])). reflexivity. Defined.

Lemma chunks_cover_document_witness :
  exists cs,
    Chunker.chunk_document Chunker.small "doc"
      "One sentence here. Another sentence there! And a third one?" None = Ok cs
    /\ Forall (fun segment =>
                 (exists c, c ∈ cs /\ occurs_in segment (Chunker.content c))
                 \/ Forall (fun sentence =>
                              exists c, c ∈ cs /\ occurs_in sentence (Chunker.content c))
                      (Chunker._split_into_sentences segment))
         (Chunker._split_into_segments
            "One sentence here. Another sentence there! And a third one?").
Proof.
  destruct (Chunker.chunk_document Chunker.small "doc"
              "One sentence here. Another sentence there! And a third one?" None)
    as [cs|e] eqn:E; [|vm_compute in E; discriminate].
  exists cs. split; [reflexivity|].
  apply (chunks_cover_document _ _ _ _ _ E). reflexivity.
Defined.

Lemma init_overlap_not_negative_witness :
  exists self,
    Chunker.init 800 Chunker.percent_15 500 = Ok self
    /\ 0 <= Chunker.overlap_size self.
Proof.
  destruct (Chunker.init 800 Chunker.percent_15 500) as [self|e] eqn:E;
    [|vm_compute in E; discriminate].
  exists self. split; [reflexivity|].
  apply (init_overlap_not_negative 800 Chunker.percent_15 500 self E); [lia | reflexivity].
Defined.

End MoreRuns.
